(** * Google Maps scraper: a shallow embedding of [main.py]

    The development follows the source file top to bottom:

    - [Py]: the Python built-ins the program calls ([str.split],
      [str.strip], [str.replace], indexing and slicing, [float], [int]);
    - [Business], [hash_fields], [Business_hash]: the record and its
      [__hash__];
    - [BusinessList], [add_business], [dataframe], [to_csv];
    - [extract_coordinates_from_url];
    - [main]: input resolution, the scroll loop, the per-listing
      [try]/[except], the export, and the process-level handler.

    A Python [str] is the list of its characters; characters are the
    8-bit [ascii] of the Standard Library (code points 0 to 255).
    The browser (Playwright), the file system and the built-in [hash]
    are not part of the repository: the browser and the file system are
    an interface ([Environment]) the program is written against, and
    [hash] is a variable of the sections that use it. *)

From Stdlib Require Import ZArith NArith List Ascii String Lia.
From stdpp Require Import base tactics option list sets gmap finite.

Set Default Proof Using "Type".
Set Warnings "-clear-no-such-hyp".
Local Open Scope Z_scope.

(* ================================================================== *)
(** * Part I. Python built-ins *)
(* ================================================================== *)

Module Py.

(** ** Strings *)

Abbreviation str := (list ascii).

(** A string literal of the source. *)
Definition lit (s : string) : str := list_ascii_of_string s.

Definition code (c : ascii) : N := N_of_ascii c.

(** Exceptions raised by the built-ins and by the libraries.  All of
    them derive from [Exception].  The text of a built-in's message
    quotes its argument with [repr]; the model keeps the argument. *)
Inductive exception : Type :=
| IndexError                       (* list index out of range *)
| ValueError_empty_separator       (* str.split("") *)
| ValueError_float (s : str)       (* could not convert string to float *)
| ValueError_int (s : str)         (* invalid literal for int() with base 10 *)
| AttributeError_None (attr : str) (* 'NoneType' object has no attribute *)
| LibraryError (message : str).    (* raised by playwright, pandas or the OS *)

(** A built-in either returns or raises. *)
Inductive result (A : Type) : Type :=
| Ok (a : A)
| Err (e : exception).
Arguments Ok {A} a.
Arguments Err {A} e.

#[global] Instance result_ret : MRet result := fun A a => Ok a.
#[global] Instance result_bind : MBind result := fun A B f r =>
  match r with Ok a => f a | Err e => Err e end.


(** [str.isspace] on one character: the code points below 256 with the
    Unicode White_Space property or bidirectional type WS, B or S. *)
Definition isspace (c : ascii) : bool :=
  let n := code c in
  ((9 <=? n) && (n <=? 13) || (28 <=? n) && (n <=? 32)
   || (n =? 133) || (n =? 160))%N.

(** C's [Py_ISSPACE], used by [float] and [int] after their argument
    was brought to ASCII. *)
Definition c_isspace (c : ascii) : bool :=
  let n := code c in ((9 <=? n) && (n <=? 13) || (n =? 32))%N.

Fixpoint lstrip_by (sp : ascii -> bool) (s : str) : str :=
  match s with
  | c :: s' => if sp c then lstrip_by sp s' else s
  | [] => []
  end.

Definition rstrip_by (sp : ascii -> bool) (s : str) : str :=
  rev (lstrip_by sp (rev s)).

Definition strip_by (sp : ascii -> bool) (s : str) : str :=
  rstrip_by sp (lstrip_by sp s).

(** [s.strip()] *)
Definition strip (s : str) : str := strip_by isspace s.

(** [s.startswith(p)] *)
Fixpoint startswith (s p : str) {struct p} : bool :=
  match p, s with
  | [], _ => true
  | _ :: _, [] => false
  | a :: p', b :: s' => if decide (a = b) then startswith s' p' else false
  end.

(** [s.find(sub)]: the lowest index at which [sub] occurs, if any. *)
Fixpoint find (s sub : str) : option nat :=
  if startswith s sub then Some 0%nat
  else match s with
       | [] => None
       | _ :: s' => S <$> find s' sub
       end.

(** [sub in s] *)
Definition contains (s sub : str) : bool := bool_decide (is_Some (find s sub)).

(** The loop of [s.split(sep)] for a non-empty [sep]: cut at the first
    occurrence, go on after it.  Each cut consumes a character at least,
    so [length s] rounds are enough. *)
Fixpoint split_loop (fuel : nat) (s sep : str) : list str :=
  match fuel with
  | O => [s]
  | S fuel' =>
      match find s sep with
      | None => [s]
      | Some i => take i s :: split_loop fuel' (drop (i + length sep) s) sep
      end
  end.

(** [s.split(sep)] *)
Definition split (s sep : str) : result (list str) :=
  match sep with
  | [] => Err ValueError_empty_separator
  | _ :: _ => Ok (split_loop (length s) s sep)
  end.

(** [s.split()]: the maximal runs of characters that are not white
    space. *)
Fixpoint split_ws_loop (cur : str) (s : str) : list str :=
  match s with
  | [] => match cur with [] => [] | _ :: _ => [rev cur] end
  | c :: s' =>
      if isspace c
      then match cur with
           | [] => split_ws_loop [] s'
           | _ :: _ => rev cur :: split_ws_loop [] s'
           end
      else split_ws_loop (c :: cur) s'
  end.

Definition split_ws (s : str) : list str := split_ws_loop [] s.

(** [sep.join(pieces)] *)
Fixpoint join (sep : str) (pieces : list str) : str :=
  match pieces with
  | [] => []
  | [p] => p
  | p :: ps => p ++ sep ++ join sep ps
  end.

(** [s.replace(old, new)]: every occurrence met by the scan of [split]
    is replaced; an empty [old] matches before every character and at
    the end. *)
Definition replace (s old new : str) : str :=
  match old with
  | [] => new ++ flat_map (fun c => c :: new) s
  | _ :: _ => join new (split_loop (length s) s old)
  end.

(** ** Lists *)

(** [l[i]], negative indices counting from the end. *)
Definition getitem {A} (l : list A) (i : Z) : result A :=
  let n := Z.of_nat (length l) in
  let j := if i <? 0 then n + i else i in
  if (j <? 0) || (n <=? j) then Err IndexError
  else match l !! Z.to_nat j with
       | Some x => Ok x
       | None => Err IndexError
       end.

(** [l[:stop]]: a negative [stop] counts from the end, and both ends
    are clamped. *)
Definition slice_to {A} (l : list A) (stop : Z) : list A :=
  let n := Z.of_nat (length l) in
  let j := if stop <? 0 then Z.max 0 (n + stop) else Z.min n stop in
  take (Z.to_nat j) l.

(** ** Truth values *)

Definition truthy_str (s : str) : bool :=
  match s with [] => false | _ :: _ => true end.

(** Truth value of an [Optional[str]]: [None] and the empty string are
    false. *)
Definition truthy (v : option str) : bool :=
  match v with Some s => truthy_str s | None => false end.

Definition truthy_int (v : option Z) : bool :=
  match v with Some n => negb (n =? 0) | None => false end.

(** ** Numbers from text *)

(** The value of the decimal [float] read: the double nearest to
    [mantissa * 10 ^ exp10] (negated when [negative]); the model keeps
    the decimal and leaves the rounding to the runtime. *)
Inductive pyfloat : Type :=
| Finite (negative : bool) (mantissa : N) (exp10 : Z)
| Inf (negative : bool)
| NaN.

Definition is_digit (c : ascii) : bool :=
  ((48 <=? code c) && (code c <=? 57))%N.

Definition digit_value (c : ascii) : N := (code c - 48)%N.

Definition digits_value (ds : str) : N :=
  fold_left (fun acc c => (10 * acc + digit_value c)%N) ds 0%N.

Fixpoint span_digits (s : str) : str * str :=
  match s with
  | c :: s' =>
      if is_digit c then let '(ds, r) := span_digits s' in (c :: ds, r)
      else ([], s)
  | [] => ([], [])
  end.

(** An optional sign: whether it is a minus, and what follows. *)
Definition take_sign (s : str) : bool * str :=
  match s with
  | c :: r =>
      if decide (c = "-"%char) then (true, r)
      else if decide (c = "+"%char) then (false, r)
      else (false, s)
  | [] => (false, [])
  end.

(** [float] and [int] first bring a [str] to ASCII: white space above
    the ASCII range becomes a blank, any other character from 127 up
    (none is a decimal digit below 256) becomes a question mark. *)
Definition to_ascii (c : ascii) : ascii :=
  if (code c <? 127)%N then c
  else if isspace c then " "%char else "?"%char.

(** Underscores may stand between two digits only; they are dropped
    before the number is read. *)
Fixpoint drop_underscores (prev : ascii) (s : str) : option str :=
  match s with
  | [] => if decide (prev = "_"%char) then None else Some []
  | c :: s' =>
      if decide (c = "_"%char)
      then if is_digit prev then drop_underscores c s' else None
      else if bool_decide (prev = "_"%char) && negb (is_digit c) then None
           else (c ::.) <$> drop_underscores c s'
  end.

(** What follows the mantissa: nothing, or [e] or [E], an optional
    sign and one digit at least, up to the end. *)
Definition parse_exponent (s : str) : option Z :=
  match s with
  | [] => Some 0
  | c :: r =>
      if bool_decide (c = "e"%char \/ c = "E"%char)
      then let '(neg, r1) := take_sign r in
           let '(ds, r2) := span_digits r1 in
           match ds, r2 with
           | _ :: _, [] =>
               let v := Z.of_N (digits_value ds) in
               Some (if neg then - v else v)
           | _, _ => None
           end
      else None
  end.

(** [sign? (digits [. digits?] | . digits) exponent?], all of [s]. *)
Definition parse_decimal (s : str) : option pyfloat :=
  let '(neg, s1) := take_sign s in
  let '(ip, s2) := span_digits s1 in
  let '(fp, s3) :=
    match s2 with
    | c :: r => if decide (c = "."%char) then span_digits r else ([], s2)
    | [] => ([], [])
    end in
  match ip ++ fp with
  | [] => None
  | _ :: _ =>
      e ← parse_exponent s3;
      Some (Finite neg (digits_value (ip ++ fp)) (e - Z.of_nat (length fp)))
  end.

Definition lower (c : ascii) : ascii :=
  if ((65 <=? code c) && (code c <=? 90))%N
  then ascii_of_N (code c + 32) else c.

(** [sign? (inf | infinity | nan)], whatever the case of the letters. *)
Definition parse_inf_nan (s : str) : option pyfloat :=
  let '(neg, r) := take_sign s in
  let w := map lower r in
  if bool_decide (w = lit "inf" \/ w = lit "infinity") then Some (Inf neg)
  else if bool_decide (w = lit "nan") then Some NaN
  else None.

(** [float(s)] for a [str]. *)
Definition float (s : str) : result pyfloat :=
  let t := strip_by c_isspace (map to_ascii s) in
  match drop_underscores "000"%char t with
  | None => Err (ValueError_float s)
  | Some t' =>
      match parse_decimal t' with
      | Some f => Ok f
      | None =>
          match parse_inf_nan t' with
          | Some f => Ok f
          | None => Err (ValueError_float s)
          end
      end
  end.

(** The digits of an [int] literal: digits with single underscores
    between them, none in front and none at the end. *)
Fixpoint span_int_digits (prev : ascii) (s : str) : option (str * str) :=
  match s with
  | c :: s' =>
      if decide (c = "_"%char)
      then if decide (prev = "_"%char) then None
           else span_int_digits c s'
      else if is_digit c
           then '(ds, r) ← span_int_digits c s'; Some (c :: ds, r)
           else if decide (prev = "_"%char) then None else Some ([], s)
  | [] => if decide (prev = "_"%char) then None else Some ([], [])
  end.

(** The longest decimal text [int] converts (CPython's default
    [sys.int_info.default_max_str_digits]). *)
Definition int_max_str_digits : nat := 4300.

(** [int(s)] for a [str], base 10. *)
Definition int (s : str) : result Z :=
  let '(neg, t) := take_sign (lstrip_by c_isspace (map to_ascii s)) in
  match t with
  | c :: _ =>
      if decide (c = "_"%char) then Err (ValueError_int s)
      else match span_int_digits "000"%char t with
           | Some (d :: ds, r) =>
               if bool_decide (lstrip_by c_isspace r = [])
                  && bool_decide (length (d :: ds) <= int_max_str_digits)%nat
               then let v := Z.of_N (digits_value (d :: ds)) in
                    Ok (if neg then - v else v)
               else Err (ValueError_int s)
           | _ => Err (ValueError_int s)
           end
  | [] => Err (ValueError_int s)
  end.

End Py.

Import Py.

(* ================================================================== *)
(** * Part II. The program *)
(* ================================================================== *)

(** ** [class Business] *)

(** The values a field of a record holds: [None], a [str], an [int] or
    a [float]. *)
Inductive pyval : Type :=
| PNone
| PStr (s : str)
| PInt (n : Z)
| PFloat (f : pyfloat).

Definition of_optional_str (v : option str) : pyval :=
  match v with Some s => PStr s | None => PNone end.

Definition of_optional_float (v : option pyfloat) : pyval :=
  match v with Some f => PFloat f | None => PNone end.

(** The dataclass, field by field.  [reviews_count] and
    [reviews_average] are declared [int] and [float] and are assigned
    the empty string when the page shows no reviews, so they hold any
    value. *)
Record Business : Type := {
  name : option str;
  address : option str;
  domain : option str;
  website : option str;
  phone_number : option str;
  category : option str;
  location : option str;
  reviews_count : pyval;
  reviews_average : pyval;
  latitude : option pyfloat;
  longitude : option pyfloat;
}.

(** [Business()]: every field defaults to [None]. *)
Definition Business_new : Business :=
  {| name := None; address := None; domain := None; website := None;
     phone_number := None; category := None; location := None;
     reviews_count := PNone; reviews_average := PNone;
     latitude := None; longitude := None |}.

(** The text an f-string puts for a truthy [Optional[str]]. *)
Definition format_str (v : option str) : str := default [] v.

(** The list [hash_fields] that [__hash__] builds and turns into a
    tuple: the name, then a tag for each contact field that is truthy. *)
Definition hash_fields (self : Business) : list (option str) :=
  let hash_fields := [name self] in
  let hash_fields :=
    if truthy (domain self)
    then hash_fields ++ [Some (lit "domain:" ++ format_str (domain self))]
    else hash_fields in
  let hash_fields :=
    if truthy (website self)
    then hash_fields ++ [Some (lit "website:" ++ format_str (website self))]
    else hash_fields in
  let hash_fields :=
    if truthy (phone_number self)
    then hash_fields ++ [Some (lit "phone:" ++ format_str (phone_number self))]
    else hash_fields in
  hash_fields.

(** [Business.__hash__]: the built-in [hash] of the tuple.  [py_hash]
    stands for the built-in on tuples of [None] and [str]. *)
Definition Business_hash (py_hash : list (option str) -> Z)
    (self : Business) : Z :=
  py_hash (hash_fields self).


(** ** [class BusinessList] *)

Record BusinessList : Type := {
  business_list : list Business;
  _seen_businesses : gset Z;
}.

(** [BusinessList()] *)
Definition BusinessList_new : BusinessList :=
  {| business_list := []; _seen_businesses := ∅ |}.

Definition add_business (py_hash : list (option str) -> Z)
    (self : BusinessList) (business : Business) : BusinessList :=
  let business_hash := Business_hash py_hash business in
  if decide (business_hash ∉ _seen_businesses self)
  then {| business_list := business_list self ++ [business];
          _seen_businesses := _seen_businesses self ∪ {[business_hash]} |}
  else self.

(** [dataclasses.asdict]: the fields in the order of their
    declaration. *)
Definition asdict (b : Business) : list (str * pyval) :=
  [ (lit "name", of_optional_str (name b));
    (lit "address", of_optional_str (address b));
    (lit "domain", of_optional_str (domain b));
    (lit "website", of_optional_str (website b));
    (lit "phone_number", of_optional_str (phone_number b));
    (lit "category", of_optional_str (category b));
    (lit "location", of_optional_str (location b));
    (lit "reviews_count", reviews_count b);
    (lit "reviews_average", reviews_average b);
    (lit "latitude", of_optional_float (latitude b));
    (lit "longitude", of_optional_float (longitude b)) ].

(** A pandas frame: the column labels and one list of cells per row. *)
Record DataFrame : Type := {
  columns : list str;
  rows : list (list pyval);
}.

(** [d.get(key)] on a record given as its items. *)
Fixpoint dict_get (d : list (str * pyval)) (key : str) : option pyval :=
  match d with
  | [] => None
  | (k, v) :: d' => if decide (k = key) then Some v else dict_get d' key
  end.

(** The column labels, with the keys of one more record: a key not met
    before becomes the last column. *)
Fixpoint add_keys (columns keys : list str) : list str :=
  match keys with
  | [] => columns
  | key :: keys' =>
      add_keys (if decide (key ∈ columns) then columns else columns ++ [key])
               keys'
  end.

(** [pd.json_normalize(data, sep=...)] on records whose values are
    scalars (nothing to flatten): the columns are the keys in the order
    they first appear, each record is a row, a key a record lacks is
    NaN. *)
Definition json_normalize (data : list (list (str * pyval))) : DataFrame :=
  let columns := foldl (fun columns d => add_keys columns (map fst d)) [] data in
  {| columns := columns;
     rows := map (fun d => map (fun key => default (PFloat NaN) (dict_get d key))
                               columns) data |}.

Definition dataframe (self : BusinessList) : DataFrame :=
  json_normalize (map asdict (business_list self)).

(** A field of the delimited file: text, or a number in the format
    pandas gives its column. *)
Inductive csv_field : Type :=
| Text (s : str)
| Number_int (n : Z)
| Number_float (f : pyfloat).

(** [to_csv] writes a missing value ([None], NaN) as [na_rep], which
    is the empty string. *)
Definition to_csv_field (v : pyval) : csv_field :=
  match v with
  | PNone => Text []
  | PStr s => Text s
  | PInt n => Number_int n
  | PFloat NaN => Text []
  | PFloat f => Number_float f
  end.

(** [df.to_csv(path, index=False)]: the header, then the rows. *)
Record csv_file : Type := {
  header : list str;
  records : list (list csv_field);
}.

Definition to_csv (df : DataFrame) : csv_file :=
  {| header := columns df;
     records := map (map to_csv_field) (rows df) |}.

(** ** [extract_coordinates_from_url] *)

Definition extract_coordinates_from_url (url : str)
    : result (pyfloat * pyfloat) :=
  after_at ← (pieces ← Py.split url (lit "/@"); getitem pieces (-1));
  coordinates ← (pieces ← Py.split after_at (lit "/"); getitem pieces 0);
  latitude ← (pieces ← Py.split coordinates (lit ","); p ← getitem pieces 0; float p);
  longitude ← (pieces ← Py.split coordinates (lit ","); p ← getitem pieces 1; float p);
  mret (latitude, longitude).

(** ** The browser and the file system *)

(** The selectors of the source, by the variable that holds them or the
    element they find. *)
Inductive selector : Type :=
| searchbox_input        (* //input[@id="searchboxinput"] *)
| place_links            (* //a[contains(@href, "https://www.google.com/maps/place")] *)
| name_attribute         (* h1.DUwDvf *)
| address_xpath
| website_xpath
| phone_number_xpath
| review_count_xpath
| reviews_average_xpath.

(** A Playwright locator is a query, resolved when it is used:
    [page.locator(sel)], [loc.nth(i)] and [loc.locator("xpath=..")]. *)
Inductive locator : Type :=
| Locator (sel : selector)
| Nth (loc : locator) (i : nat)
| Parent (loc : locator).

(** What a call of the browser or of pandas does to the world [W]:
    it returns or raises, and leaves a world. *)
Definition call (W A : Type) : Type := W -> result A * W.

(** The calls the program makes, in the order of their first use. *)
Class Environment (W : Type) : Type := {
  playwright_enter : call W unit;       (* with sync_playwright() as p *)
  playwright_exit : call W unit;
  chromium_launch : bool -> call W unit;               (* headless *)
  new_page : str -> call W unit;                       (* locale *)
  goto : str -> Z -> call W unit;                      (* url, timeout *)
  fill : selector -> str -> call W unit;
  wait_for_timeout : Z -> call W unit;
  keyboard_press : str -> call W unit;
  hover : selector -> call W unit;
  mouse_wheel : Z -> Z -> call W unit;
  count : locator -> call W nat;
  click : locator -> call W unit;
  inner_text : locator -> call W str;
  get_attribute : locator -> str -> call W (option str);
  page_url : call W str;
  browser_close : call W unit;
  to_excel : str -> DataFrame -> call W unit;          (* path, frame *)
  write_csv : str -> csv_file -> call W unit;          (* path, file *)
}.

(** ** Running the program *)

(** The lines the program prints, by the [print] that writes them. *)
Inductive output : Type :=
| Print_input_error                          (* Error occured: You must ... *)
| Print_search (index : nat) (search_for : str)
| Print_total_scraped (n : nat)              (* Total Scraped: n *)
| Print_arrived_at_all (n : nat)             (* Arrived at all available *)
| Print_currently_scraped (n : nat)
| Print_error_occurred (e : exception)       (* Error occurred: e *)
| Print_failed (e : exception).              (* Failed err: e *)

Record state (W : Type) : Type := State {
  world : W;
  stdout : list output;
}.
Arguments State {W} world stdout.
Arguments world {W} s.
Arguments stdout {W} s.

(** How a piece of the program ends.  [SystemExit] is not an
    [Exception]: [except Exception] lets it through.  [OutOfFuel] is
    the model's: the loop was given too few rounds. *)
Inductive outcome (A : Type) : Type :=
| Return (a : A)
| Raise (e : exception)
| SysExit (status : option Z)
| OutOfFuel.
Arguments Return {A} a.
Arguments Raise {A} e.
Arguments SysExit {A} status.
Arguments OutOfFuel {A}.

Definition M (W A : Type) : Type := state W -> outcome A * state W.

#[global] Instance M_ret {W} : MRet (M W) := fun A a st => (Return a, st).
#[global] Instance M_bind {W} : MBind (M W) := fun A B f m st =>
  match m st with
  | (Return a, st') => f a st'
  | (Raise e, st') => (Raise e, st')
  | (SysExit status, st') => (SysExit status, st')
  | (OutOfFuel, st') => (OutOfFuel, st')
  end.

#[global] Instance M_fmap {W} : FMap (M W) := fun A B f m =>
  a ← m; mret (f a).

Section Program.
Context {W : Type} `{!Environment W}.

(** The built-in [hash], on the tuples [__hash__] builds. *)
Variable py_hash : list (option str) -> Z.

(** A call of the interface. *)
Definition do {A} (c : call W A) : M W A := fun st =>
  match c (world st) with
  | (Ok a, w) => (Return a, State w (stdout st))
  | (Err e, w) => (Raise e, State w (stdout st))
  end.

(** A built-in applied inside the program. *)
Definition lift {A} (r : result A) : M W A := fun st =>
  match r with
  | Ok a => (Return a, st)
  | Err e => (Raise e, st)
  end.

Definition print (o : output) : M W unit := fun st =>
  (Return (), State (world st) (stdout st ++ [o])).

(** [sys.exit(status)] *)
Definition sys_exit {A} (status : option Z) : M W A := fun st =>
  (SysExit status, st).

Definition out_of_fuel {A} : M W A := fun st => (OutOfFuel, st).

(** [try: body except Exception as e: handler] *)
Definition try_except {A} (body : M W A) (handler : exception -> M W A)
    : M W A := fun st =>
  match body st with
  | (Raise e, st') => handler e st'
  | r => r
  end.

(** [with sync_playwright() as p: body]: the exit runs however the
    body ends, and what it raises replaces the body's outcome. *)
Definition with_sync_playwright {A} (body : M W A) : M W A := fun st =>
  match do playwright_enter st with
  | (Return _, st1) =>
      match body st1 with
      | (OutOfFuel, st2) => (OutOfFuel, st2)
      | (o, st2) =>
          match do playwright_exit st2 with
          | (Return _, st3) => (o, st3)
          | (Raise e, st3) => (Raise e, st3)
          | (SysExit status, st3) => (SysExit status, st3)
          | (OutOfFuel, st3) => (OutOfFuel, st3)
          end
      end
  | (Raise e, st1) => (Raise e, st1)
  | (SysExit status, st1) => (SysExit status, st1)
  | (OutOfFuel, st1) => (OutOfFuel, st1)
  end.

(** [loc.all()]: one locator per element counted now. *)
Definition all (loc : locator) : M W (list locator) :=
  n ← do (count loc);
  mret (map (Nth loc) (seq 0 n)).

(** *** The scroll loop (lines 144 to 182) *)

(** One round per unit of [fuel]; the source queries the count anew
    each time it needs it, and so does the model. *)
Fixpoint scroll_loop (fuel : nat) (total : Z) (previously_counted : Z)
    : M W (list locator) :=
  match fuel with
  | O => out_of_fuel
  | S fuel' =>
      do (mouse_wheel 0 10000);;
      do (wait_for_timeout 3000);;
      c ← do (count (Locator place_links));
      if bool_decide (Z.of_nat c >= total)
      then
        listings ← all (Locator place_links);
        let listings := slice_to listings total in
        let listings := map Parent listings in
        print (Print_total_scraped (length listings));;
        mret listings
      else
        c ← do (count (Locator place_links));
        if bool_decide (Z.of_nat c = previously_counted)
        then
          listings ← all (Locator place_links);
          print (Print_arrived_at_all (length listings));;
          mret listings
        else
          previously_counted ← do (count (Locator place_links));
          c ← do (count (Locator place_links));
          print (Print_currently_scraped c);;
          scroll_loop fuel' total (Z.of_nat previously_counted)
  end.

(** *** One listing (lines 187 to 238) *)

(** [page.locator(xpath).all()[0].inner_text()] *)
Definition first_inner_text (xpath : selector) : M W str :=
  found ← all (Locator xpath);
  element ← lift (getitem found 0);
  do (inner_text element).

(** [search_for.split(' in ')[0].strip()] *)
Definition category_of (search_for : str) : result str :=
  pieces ← Py.split search_for (lit " in ");
  piece ← getitem pieces 0;
  mret (strip piece).

(** [search_for.split(' in ')[-1].strip()] *)
Definition location_of (search_for : str) : result str :=
  pieces ← Py.split search_for (lit " in ");
  piece ← getitem pieces (-1);
  mret (strip piece).

(** [int(text.split()[0].replace(',', '').strip())] *)
Definition parse_reviews_count (text : str) : result Z :=
  word ← getitem (split_ws text) 0;
  int (strip (replace word (lit ",") [])).

(** [float(label.split()[0].replace(',', '.').strip())], [label] being
    what [get_attribute] gave: [None] has no [split]. *)
Definition parse_reviews_average (label : option str) : result pyfloat :=
  match label with
  | None => Err (AttributeError_None (lit "split"))
  | Some text =>
      word ← getitem (split_ws text) 0;
      float (strip (replace word (lit ",") (lit ".")))
  end.

(** The body of the [try]: click the listing, read the fields, build
    the record.  It ends with the record to add, or raises. *)
Definition read_listing (search_for : str) (listing : locator)
    : M W Business :=
  do (click listing);;
  do (wait_for_timeout 2000);;
  name_value ← do (inner_text (Locator name_attribute));
  let name := if truthy_str name_value then strip name_value else [] in
  n ← do (count (Locator address_xpath));
  address ← (if bool_decide (0 < n)%nat
             then first_inner_text address_xpath else mret []);
  n ← do (count (Locator website_xpath));
  site ← (if bool_decide (0 < n)%nat
          then domain ← first_inner_text website_xpath;
               text ← first_inner_text website_xpath;
               mret (Some domain, lit "https://www." ++ text)
          else mret (None, []));
  n ← do (count (Locator phone_number_xpath));
  phone_number ← (if bool_decide (0 < n)%nat
                  then first_inner_text phone_number_xpath else mret []);
  n ← do (count (Locator review_count_xpath));
  reviews_count ← (if bool_decide (0 < n)%nat
                   then text ← do (inner_text (Locator review_count_xpath));
                        PInt <$> lift (parse_reviews_count text)
                   else mret (PStr []));
  n ← do (count (Locator reviews_average_xpath));
  reviews_average ← (if bool_decide (0 < n)%nat
                     then label ← do (get_attribute
                                        (Locator reviews_average_xpath)
                                        (lit "aria-label"));
                          PFloat <$> lift (parse_reviews_average label)
                     else mret (PStr []));
  category ← lift (category_of search_for);
  location ← lift (location_of search_for);
  url ← do page_url;
  coordinates ← lift (extract_coordinates_from_url url);
  mret {| name := Some name;
          address := Some address;
          domain := fst site;
          website := Some (snd site);
          phone_number := Some phone_number;
          category := Some category;
          location := Some location;
          reviews_count := reviews_count;
          reviews_average := reviews_average;
          latitude := Some (fst coordinates);
          longitude := Some (snd coordinates) |}.

(** One round of [for listing in listings]: the [try] with its
    [except Exception]. *)
Definition scrape_listing (search_for : str) (business_list : BusinessList)
    (listing : locator) : M W BusinessList :=
  try_except
    (business ← read_listing search_for listing;
     mret (add_business py_hash business_list business))
    (fun e => print (Print_error_occurred e);; mret business_list).

Fixpoint scrape_listings (search_for : str) (business_list : BusinessList)
    (listings : list locator) : M W BusinessList :=
  match listings with
  | [] => mret business_list
  | listing :: listings' =>
      business_list ← scrape_listing search_for business_list listing;
      scrape_listings search_for business_list listings'
  end.

(** *** Export (lines 70 to 84, 241 and 242) *)

Definition save_to_excel (save_at : str) (self : BusinessList)
    (filename : str) : M W unit :=
  do (to_excel (save_at ++ lit "/" ++ filename ++ lit ".xlsx")
               (dataframe self)).

Definition save_to_csv (save_at : str) (self : BusinessList)
    (filename : str) : M W unit :=
  do (write_csv (save_at ++ lit "/" ++ filename ++ lit ".csv")
                (to_csv (dataframe self))).

(** *** One search term (lines 133 to 242) *)

Definition scrape_search (fuel : nat) (save_at : str) (total : Z)
    (search_for_index : nat) (search_for : str) : M W unit :=
  print (Print_search search_for_index search_for);;
  do (fill searchbox_input search_for);;
  do (wait_for_timeout 3000);;
  do (keyboard_press (lit "Enter"));;
  do (wait_for_timeout 5000);;
  do (hover place_links);;
  listings ← scroll_loop fuel total 0;
  business_list ← scrape_listings search_for BusinessList_new listings;
  save_to_excel save_at business_list (replace search_for (lit " ") (lit "_"));;
  save_to_csv save_at business_list (replace search_for (lit " ") (lit "_")).

Fixpoint scrape_searches (fuel : nat) (save_at : str) (total : Z)
    (search_for_index : nat) (search_list : list str) : M W unit :=
  match search_list with
  | [] => mret ()
  | search_for :: search_list' =>
      scrape_search fuel save_at total search_for_index search_for;;
      scrape_searches fuel save_at total (S search_for_index) search_list'
  end.

(** *** [main] *)

(** What the process starts with: the parsed arguments, the lines of
    [input.txt] ([None] when there is no such file), and the directory
    of the day, [os.path.join('GMaps Data', today)]. *)
Record process : Type := {
  search : option str;
  total : option Z;
  input_txt : option (list str);
  save_at : str;
}.

(** Lines 103 to 107. *)
Definition resolve_total (args_total : option Z) : Z :=
  if truthy_int args_total then default 0 args_total else 1000000.

(** Lines 100, 101 and 109 to 124. *)
Definition resolve_search_list (p : process) : M W (list str) :=
  if negb (truthy (search p))
  then
    let search_list := [] in
    let search_list :=
      match input_txt p with
      | Some lines => lines
      | None => search_list
      end in
    if bool_decide (length search_list = 0)%nat
    then print Print_input_error;; sys_exit None
    else mret search_list
  else mret [default [] (search p)].

Definition main (fuel : nat) (p : process) : M W unit :=
  let total := resolve_total (total p) in
  search_list ← resolve_search_list p;
  with_sync_playwright
    (do (chromium_launch false);;
     do (new_page (lit "en-GB"));;
     do (goto (lit "https://www.google.com/maps") 20000);;
     scrape_searches fuel (save_at p) total 0 search_list;;
     do browser_close).

(** Lines 246 to 250. *)
Definition run (fuel : nat) (p : process) : M W unit :=
  try_except (main fuel p) (fun e => print (Print_failed e)).

End Program.

(** The status the process ends with: [sys.exit()] and [sys.exit(None)]
    give 0, as does running to the end; an exception nobody caught
    gives 1. *)
Definition exit_status {A} (o : outcome A) : option Z :=
  match o with
  | Return _ => Some 0
  | SysExit None => Some 0
  | SysExit (Some n) => Some n
  | Raise _ => Some 1
  | OutOfFuel => None
  end.

(** ** A simulated results panel *)

(** A panel that shows [counts t] links once it was scrolled [t] times;
    nothing else on the page is modelled: every other call returns at
    once, nothing else is found. *)
Record surface : Type := Surface {
  counts : nat -> nat;
  wheels : nat;
}.

Definition still {A} (a : A) : call surface A := fun w => (Ok a, w).

#[global] Instance surface_environment : Environment surface := {|
  playwright_enter := still ();
  playwright_exit := still ();
  chromium_launch := fun _ => still ();
  new_page := fun _ => still ();
  goto := fun _ _ => still ();
  fill := fun _ _ => still ();
  wait_for_timeout := fun _ => still ();
  keyboard_press := fun _ => still ();
  hover := fun _ => still ();
  mouse_wheel := fun _ _ w => (Ok (), Surface (counts w) (S (wheels w)));
  count := fun loc w =>
    match loc with
    | Locator place_links => (Ok (counts w (wheels w)), w)
    | _ => (Ok 0%nat, w)
    end;
  click := fun _ => still ();
  inner_text := fun _ => still [];
  get_attribute := fun _ _ => still None;
  page_url := still [];
  browser_close := still ();
  to_excel := fun _ _ => still ();
  write_csv := fun _ _ => still ();
|}.

(** The panel whose successive polls count [polls], the last one for
    ever: the poll after the [t]-th scroll reads [polls[t-1]]. *)
Definition surface_of_polls (polls : list nat) : surface :=
  Surface (fun t => nth (t - 1) polls (List.last polls 0%nat)) 0.

(** A hash to run the examples with: a polynomial in the characters,
    [None] counting as one more character, wrapped to 64 bits. *)
Definition sample_hash (key : list (option str)) : Z :=
  let step (h : Z) (n : Z) := (h * 1000003 + n) mod 2 ^ 64 in
  let item (h : Z) (v : option str) :=
    match v with
    | None => step h 257
    | Some s => step (fold_left (fun h c => step h (Z.of_N (code c))) s h) 256
    end in
  fold_left item key 0 - 2 ^ 63.

(** ** A simulated place page *)

(** The page of one place: its name, the text of its website element
    when it has one, and the address the browser shows; nothing else is
    found on it, and no call changes it. *)
Record place : Type := Place {
  place_name : str;
  place_site : option str;
  place_url : str;
}.

#[global] Instance place_environment : Environment place := {|
  playwright_enter := fun w => (Ok (), w);
  playwright_exit := fun w => (Ok (), w);
  chromium_launch := fun _ w => (Ok (), w);
  new_page := fun _ w => (Ok (), w);
  goto := fun _ _ w => (Ok (), w);
  fill := fun _ _ w => (Ok (), w);
  wait_for_timeout := fun _ w => (Ok (), w);
  keyboard_press := fun _ w => (Ok (), w);
  hover := fun _ w => (Ok (), w);
  mouse_wheel := fun _ _ w => (Ok (), w);
  count := fun loc w =>
    match loc with
    | Locator website_xpath =>
        (Ok (match place_site w with Some _ => 1%nat | None => 0%nat end), w)
    | _ => (Ok 0%nat, w)
    end;
  click := fun _ w => (Ok (), w);
  inner_text := fun loc w =>
    match loc with
    | Locator name_attribute => (Ok (place_name w), w)
    | Nth (Locator website_xpath) 0 => (Ok (default [] (place_site w)), w)
    | _ => (Ok [], w)
    end;
  get_attribute := fun _ _ w => (Ok None, w);
  page_url := fun w => (Ok (place_url w), w);
  browser_close := fun w => (Ok (), w);
  to_excel := fun _ _ w => (Ok (), w);
  write_csv := fun _ _ w => (Ok (), w);
|}.

(** A place with a name, a website and coordinates in its address. *)
Definition cafe : place :=
  Place (lit " Cafe Luna ") (Some (lit "luna.example"))
        (lit "https://www.google.com/maps/place/Cafe+Luna/@48.85,2.35,17z").

(* ================================================================== *)
(** * Part III. The vocabulary of the properties *)
(* ================================================================== *)

(** ** Strings *)

(** [sub] occurs in [s], at some place. *)
Definition occurs (sub s : str) : Prop :=
  exists pre post, s = pre ++ sub ++ post.


(** ** Records and their fingerprints *)

(** A contact field agrees on two records: empty on both, or the same
    text, not empty. *)
Definition same_field (x y : option str) : Prop :=
  (truthy x = false /\ truthy y = false) \/ (x = y /\ truthy x = true).

(** The rule of the docstring of [__hash__]. *)
Definition same_contact (a b : Business) : Prop :=
  name a = name b
  /\ same_field (domain a) (domain b)
  /\ same_field (website a) (website b)
  /\ same_field (phone_number a) (phone_number b).


(** A record with a name and a domain, nothing else. *)
Definition listed (name : string) (domain : string) : Business :=
  {| name := Some (lit name); address := None; domain := Some (lit domain);
     website := None; phone_number := None; category := None;
     location := None; reviews_count := PNone; reviews_average := PNone;
     latitude := None; longitude := None |}.


(** ** Collections *)

(** A new collection after the calls [add_business(b)] for [b] in
    [bs]. *)
Definition add_all (py_hash : list (option str) -> Z)
    (bs : list Business) : BusinessList :=
  foldl (add_business py_hash) BusinessList_new bs.

Definition fingerprints (py_hash : list (option str) -> Z)
    (l : list Business) : list Z :=
  map (Business_hash py_hash) l.

(** The order of first occurrence: a record stays when no record
    before it has its fingerprint. *)
Fixpoint first_occurrences (py_hash : list (option str) -> Z)
    (earlier : list Z) (bs : list Business) : list Business :=
  match bs with
  | [] => []
  | b :: bs' =>
      if decide (Business_hash py_hash b ∈ earlier)
      then first_occurrences py_hash earlier bs'
      else b :: first_occurrences py_hash
                  (earlier ++ [Business_hash py_hash b]) bs'
  end.

(** The set of seen hashes holds the hashes of the stored records and
    no other. *)
Definition seen_exact (py_hash : list (option str) -> Z)
    (bl : BusinessList) : Prop :=
  forall h, h ∈ _seen_businesses bl
            <-> h ∈ fingerprints py_hash (business_list bl).

(** ** The export *)

Definition field_names : list str := map fst (asdict Business_new).

Definition field_values (b : Business) : list pyval := map snd (asdict b).


(** ** The scroll loop on the simulated panel *)

(** The handles [all()] gives when the panel counts [c] links. *)
Definition links (c : nat) : list locator :=
  map (Nth (Locator place_links)) (seq 0 c).

(** [previously_counted] once [w] rounds went by without a stop. *)
Definition previous (counts : nat -> nat) (w : nat) : Z :=
  match w with O => 0 | S _ => Z.of_nat (counts w) end.


(** ** Pieces of the program *)

(** A piece of the program that returns or raises, whatever the state:
    it neither exits the process nor runs out of rounds. *)
Definition settles {W A} (m : M W A) : Prop :=
  forall st, exists st',
    (exists a, m st = (Return a, st')) \/ (exists e, m st = (Raise e, st')).

(** A process with a search phrase and nothing else. *)
Definition searching (phrase : string) (total : option Z) : process :=
  {| search := Some (lit phrase); total := total; input_txt := None;
     save_at := lit "GMaps Data/2024-01-01" |}.

(** A process started with no argument and no [input.txt]. *)
Definition no_input : process :=
  {| search := None; total := None; input_txt := None;
     save_at := lit "GMaps Data/2024-01-01" |}.

(** ** Words and line ends *)

(** [c], with [a] turned into [b]. *)
Definition swap_char (a b : ascii) (c : ascii) : ascii :=
  if decide (c = a) then b else c.

(** White space only, the empty string included. *)
Definition blank (s : str) : Prop := Forall (fun c => isspace c = true) s.

(** No white space anywhere. *)
Definition solid (s : str) : Prop := Forall (fun c => isspace c = false) s.

(** What follows a word: nothing, or white space first. *)
Definition word_end (rest : str) : Prop :=
  rest = [] \/ exists c rest', rest = c :: rest' /\ isspace c = true.

Definition digit_or_comma (c : ascii) : Prop :=
  is_digit c = true \/ c = ","%char.

(** The end of a line as [readlines] leaves it: white space other than
    the blank. *)
Definition line_end (ws : str) : Prop :=
  Forall (fun c => isspace c = true /\ c <> " "%char) ws.

(** A string [strip] leaves as it is: no white space at either end. *)
Definition stripped (s : str) : Prop := strip s = s.

(** ** More records and pieces of the program *)

(** The record [b] with another address. *)
Definition at_address (b : Business) (a : string) : Business :=
  {| name := name b; address := Some (lit a); domain := domain b;
     website := website b; phone_number := phone_number b;
     category := category b; location := location b;
     reviews_count := reviews_count b; reviews_average := reviews_average b;
     latitude := latitude b; longitude := longitude b |}.

(** A process that reads its phrases from [input.txt]. *)
Definition reading (lines : list str) : process :=
  {| search := None; total := None; input_txt := Some lines;
     save_at := lit "GMaps Data/2024-01-01" |}.

(** A piece of the program that does not end the process: it calls
    [sys.exit] nowhere. *)
Definition never_exits {W A} (m : M W A) : Prop :=
  forall st status st', m st <> (SysExit status, st').

(* ================================================================== *)
(** * Part IV. Properties *)
(* ================================================================== *)

(** ** [str.find] and [str.split] *)

Section Strings.
Implicit Types s sub sep pre post p : str.

Lemma startswith_prefix s p : startswith s p = true <-> p `prefix_of` s.
Proof.
  revert s. induction p as [|a p IH]; intros s; simpl.
  - split; [intros _; apply prefix_nil | done].
  - destruct s as [|b s].
    + split; [done | intros [k Hk]; discriminate].
    + case_decide as Hab.
      * subst b. rewrite IH. split.
        -- intros Hp. by apply prefix_cons.
        -- intros Hp. by apply prefix_cons_inv_2 in Hp.
      * split; [done | intros Hp]. apply prefix_cons_inv_1 in Hp. congruence.
Qed.

Lemma find_Some_occurs s sub i :
  find s sub = Some i ->
  exists pre post, s = pre ++ sub ++ post /\ length pre = i.
Proof.
  revert i. induction s as [|c s IH]; intros i; simpl.
  - destruct (startswith [] sub) eqn:Hs; [|done].
    intros [= <-]. apply startswith_prefix in Hs as [k ->].
    by exists [], k.
  - destruct (startswith (c :: s) sub) eqn:Hs.
    + intros [= <-]. apply startswith_prefix in Hs as [k Hk].
      exists [], k. by rewrite Hk.
    + destruct (find s sub) as [j|] eqn:Hf; [|done].
      intros [= <-]. destruct (IH j eq_refl) as (pre & post & -> & Hl).
      exists (c :: pre), post. simpl. by rewrite Hl.
Qed.

Lemma find_Some_least s sub i pre post :
  find s sub = Some i -> s = pre ++ sub ++ post -> (i <= length pre)%nat.
Proof.
  revert i pre. induction s as [|c s IH]; intros i pre; simpl.
  - destruct (startswith [] sub); [intros [= <-]; lia | done].
  - destruct (startswith (c :: s) sub) eqn:Hs; [intros [= <-]; lia |].
    destruct (find s sub) as [j|] eqn:Hf; [|done].
    intros [= <-] Heq. destruct pre as [|c' pre].
    + exfalso. simpl in Heq. 
      assert (startswith (c :: s) sub = true) as Ht; [|congruence].
      apply startswith_prefix. rewrite Heq. by exists post.
    + simpl in Heq. injection Heq as -> ->. simpl.
      specialize (IH j pre eq_refl eq_refl). lia.
Qed.

Lemma find_unfold s sub :
  find s sub =
  if startswith s sub then Some 0%nat
  else match s with [] => None | _ :: s' => S <$> find s' sub end.
Proof. by destruct s. Qed.

Lemma find_is_Some s sub : occurs sub s -> is_Some (find s sub).
Proof.
  intros (pre & post & ->). induction pre as [|c pre IH].
  - rewrite find_unfold.
    assert (startswith ([] ++ sub ++ post) sub = true) as ->
      by (apply startswith_prefix; by exists post).
    eauto.
  - rewrite find_unfold. destruct (startswith _ sub); [eauto|].
    simpl. destruct IH as [j ->]. simpl; eauto.
Qed.

Lemma find_None s sub : ~ occurs sub s -> find s sub = None.
Proof.
  intros Hn. destruct (find s sub) as [i|] eqn:Hf; [|done].
  destruct (find_Some_occurs _ _ _ Hf) as (pre & post & -> & _).
  exfalso. apply Hn. by exists pre, post.
Qed.

(** How a property discharges [~ occurs] on a literal: run [find]. *)
Lemma not_occurs_find s sub : find s sub = None -> ~ occurs sub s.
Proof. intros Hf [i Hi]%find_is_Some. congruence. Qed.

Lemma occurs_app_r sub s t : occurs sub s -> occurs sub (s ++ t).
Proof.
  intros (pre & post & ->). exists pre, (post ++ t). by rewrite <- !app_assoc.
Qed.

Lemma occurs_app_l sub s t : occurs sub s -> occurs sub (t ++ s).
Proof.
  intros (pre & post & ->). exists (t ++ pre), post. by rewrite <- !app_assoc.
Qed.

(** The separator starts where it is first met when nothing before it,
    nor anything running into it, is an occurrence. *)
Lemma find_first pre sep post :
  sep <> [] ->
  ~ occurs sep (pre ++ take (length sep - 1) sep) ->
  find (pre ++ sep ++ post) sep = Some (length pre).
Proof.
  intros Hne Hfree.
  destruct (find_is_Some (pre ++ sep ++ post) sep) as [i Hi];
    [by exists pre, post|].
  rewrite Hi. f_equal.
  pose proof (find_Some_least _ _ _ _ _ Hi eq_refl) as Hle.
  destruct (find_Some_occurs _ _ _ Hi) as (pre' & post' & Heq & Hl).
  destruct (decide (i = length pre)) as [|Hlt]; [done|].
  exfalso. apply Hfree.
  assert (length sep > 0)%nat by (destruct sep; simpl; [done | lia]).
  exists pre', (take (length pre + (length sep - 1) - length pre' - length sep)
                     post').
  apply (f_equal (take (length pre + (length sep - 1)))) in Heq.
  rewrite take_app_ge in Heq by lia.
  rewrite take_app_le in Heq by lia.
  replace (length pre + (length sep - 1) - length pre)%nat
    with (length sep - 1)%nat in Heq by lia.
  rewrite Heq.
  rewrite take_app_ge by lia. f_equal.
  by rewrite take_app_ge by lia.
Qed.


Lemma occurs_singleton c s : occurs [c] s <-> c ∈ s.
Proof.
  split.
  - intros (pre & post & ->). set_solver.
  - intros (pre & post & ->)%list_elem_of_split. by exists pre, post.
Qed.

Lemma find_Some_length s sub i :
  find s sub = Some i -> (i + length sub <= length s)%nat.
Proof.
  intros (pre & post & -> & <-)%find_Some_occurs.
  rewrite !length_app. lia.
Qed.

Lemma find_Some_take_drop s sub i :
  find s sub = Some i -> s = take i s ++ sub ++ drop (i + length sub) s.
Proof.
  intros (pre & post & -> & <-)%find_Some_occurs.
  rewrite take_app_length. f_equal.
  rewrite drop_app_ge by lia.
  replace (length pre + length sub - length pre)%nat with (length sub) by lia.
  by rewrite drop_app_length.
Qed.

(** Fuel beyond the length of the string changes nothing. *)
Lemma split_loop_fuel sep : sep <> [] -> forall f1 f2 s,
  (length s <= f1)%nat -> (length s <= f2)%nat ->
  split_loop f1 s sep = split_loop f2 s sep.
Proof.
  intros Hne. 
  assert (forall f s, (length s <= f)%nat ->
            split_loop f s sep = split_loop (length s) s sep) as Hnorm.
  { induction f as [f IH] using lt_wf_ind; intros s Hf.
    destruct f as [|f]; [destruct s; [done | simpl in Hf; lia]|].
    simpl. destruct (find s sep) as [i|] eqn:Hi.
    - pose proof (find_Some_length _ _ _ Hi) as Hlen.
      assert (length sep > 0)%nat by (destruct sep; simpl; [done | lia]).
      destruct s as [|c s]; [simpl in Hlen; lia|].
      cbn [length split_loop]. rewrite Hi. f_equal.
      rewrite (IH f) by (rewrite ?length_drop; simpl in *; lia).
      symmetry. apply IH; rewrite ?length_drop; simpl in *; lia.
    - destruct s; cbn [length split_loop]; [done|]. by rewrite Hi. }
  intros f1 f2 s H1 H2. by rewrite (Hnorm f1), (Hnorm f2).
Qed.

Lemma split_loop_none fuel s sep : ~ occurs sep s -> split_loop fuel s sep = [s].
Proof. intros Hn. destruct fuel; simpl; [done|]. by rewrite find_None. Qed.

Lemma split_loop_cut fuel pre sep post :
  sep <> [] ->
  ~ occurs sep (pre ++ take (length sep - 1) sep) ->
  (length (pre ++ sep ++ post) <= fuel)%nat ->
  split_loop fuel (pre ++ sep ++ post) sep
  = pre :: split_loop (length post) post sep.
Proof.
  intros Hne Hfree Hfuel.
  assert (length sep > 0)%nat by (destruct sep; simpl; [done | lia]).
  destruct fuel as [|fuel]; [rewrite !length_app in Hfuel; lia|].
  simpl. rewrite find_first by done.
  rewrite take_app_length. f_equal.
  rewrite drop_app_ge by lia.
  replace (length pre + length sep - length pre)%nat with (length sep) by lia.
  rewrite drop_app_length.
  apply split_loop_fuel; [done | | done].
  rewrite !length_app in Hfuel. lia.
Qed.

Lemma split_loop_nonempty fuel s sep : split_loop fuel s sep <> [].
Proof. destruct fuel; simpl; [done|]. by destruct (find s sep). Qed.



Lemma split_Ok s sep :
  sep <> [] -> Py.split s sep = Ok (split_loop (length s) s sep).
Proof. by destruct sep. Qed.


Lemma split_cut pre sep post :
  sep <> [] ->
  ~ occurs sep (pre ++ take (length sep - 1) sep) ->
  Py.split (pre ++ sep ++ post) sep
  = Ok (pre :: split_loop (length post) post sep).
Proof. intros. by rewrite split_Ok, split_loop_cut. Qed.

Lemma first_occurrence (c : ascii) s :
  c ∈ s -> exists a b, s = a ++ c :: b /\ c ∉ a.
Proof.
  induction s as [|d s IH]; [by intros ?%elem_of_nil|].
  destruct (decide (d = c)) as [->|Hne].
  - intros _. exists [], s. split; [done | apply not_elem_of_nil].
  - intros [?|Hin]%elem_of_cons; [congruence|].
    destruct (IH Hin) as (a & b & -> & Ha).
    exists (d :: a), b. split; [done|].
    intros [?|?]%elem_of_cons; [congruence | done].
Qed.

(** The two cases for a separator of one character. *)
Lemma split_loop_none_char fuel (c : ascii) s :
  c ∉ s -> split_loop fuel s [c] = [s].
Proof. intros Hc. apply split_loop_none. by rewrite occurs_singleton. Qed.

Lemma split_loop_cut_char fuel (c : ascii) pre post :
  c ∉ pre -> (length (pre ++ c :: post) <= fuel)%nat ->
  split_loop fuel (pre ++ c :: post) [c]
  = pre :: split_loop (length post) post [c].
Proof.
  intros Hc Hfuel. apply (split_loop_cut fuel pre [c] post); [done| |done].
  change (take (length [c] - 1) [c]) with (@nil ascii).
  by rewrite app_nil_r, occurs_singleton.
Qed.


Lemma getitem_0 {A} (x : A) l : getitem (x :: l) 0 = Ok x.
Proof.
  unfold getitem. cbn [length]. 
  replace (0 <? 0) with false by done. cbn [orb].
  destruct (Z.leb_spec (Z.of_nat (S (length l))) 0); [lia | reflexivity].
Qed.



Lemma getitem_1_single {A} (x : A) : getitem [x] 1 = Err IndexError.
Proof. done. Qed.

Lemma getitem_last {A} (l : list A) y :
  last l = Some y -> getitem l (-1) = Ok y.
Proof.
  intros Hl. unfold getitem.
  replace (-1 <? 0) with true by done.
  assert (l <> []) as Hne by (intros ->; done).
  assert (0 < length l)%nat by (destruct l; simpl; [done | lia]).
  destruct (Z.ltb_spec (Z.of_nat (length l) + -1) 0); [lia|].
  destruct (Z.leb_spec (Z.of_nat (length l)) (Z.of_nat (length l) + -1));
    [lia|]. cbn [orb].
  rewrite last_lookup in Hl.
  replace (Z.to_nat (Z.of_nat (length l) + -1)) with (pred (length l)) by lia.
  by rewrite Hl.
Qed.

(** Cutting a joined string gives the pieces back, when no piece makes
    an occurrence of the separator of its own. *)
Lemma split_loop_join sep init wn fuel :
  sep <> [] ->
  Forall (fun w => ~ occurs sep (w ++ take (length sep - 1) sep)) init ->
  ~ occurs sep wn ->
  (length (join sep (init ++ [wn])) <= fuel)%nat ->
  split_loop fuel (join sep (init ++ [wn])) sep = init ++ [wn].
Proof.
  intros Hne Hinit Hwn. revert fuel.
  induction Hinit as [|w init Hw Hinit IH]; intros fuel Hfuel.
  - simpl. by apply split_loop_none.
  - assert (join sep ((w :: init) ++ [wn]) = w ++ sep ++ join sep (init ++ [wn]))
      as Hj by (simpl; by destruct init).
    rewrite Hj in *.
    rewrite split_loop_cut by done. simpl. f_equal. by apply IH.
Qed.

Lemma join_cons sep w init wn :
  join sep ((w :: init) ++ [wn]) = w ++ sep ++ join sep (init ++ [wn]).
Proof. simpl. by destruct init. Qed.

Lemma find_Some_free s sep i :
  sep <> [] -> find s sep = Some i ->
  ~ occurs sep (take i s ++ take (length sep - 1) sep).
Proof.
  intros Hne Hi (pre' & post' & Heq).
  assert (length sep > 0)%nat by (destruct sep; simpl; [done | lia]).
  pose proof (find_Some_length _ _ _ Hi) as Hlen.
  pose proof (find_Some_take_drop _ _ _ Hi) as Hdec.
  assert (i <= length pre')%nat as Hle.
  { apply (find_Some_least s sep i pre'
             (post' ++ drop (length sep - 1) sep ++ drop (i + length sep) s) Hi).
    rewrite Hdec at 1.
    rewrite <- (take_drop (length sep - 1) sep) at 1.
    rewrite <- !app_assoc. rewrite (app_assoc (take i s)), Heq.
    by rewrite <- !app_assoc. }
  apply (f_equal length) in Heq.
  rewrite !length_app, !length_take in Heq. lia.
Qed.

(** Every string is its pieces joined, and no piece makes an occurrence
    of the separator of its own. *)
Lemma split_loop_pieces sep : sep <> [] -> forall fuel s,
  (length s <= fuel)%nat ->
  exists init wn,
    split_loop fuel s sep = init ++ [wn]
    /\ s = join sep (init ++ [wn])
    /\ Forall (fun w => ~ occurs sep (w ++ take (length sep - 1) sep)) init
    /\ ~ occurs sep wn.
Proof.
  intros Hne.
  assert (length sep > 0)%nat by (destruct sep; simpl; [done | lia]).
  induction fuel as [|fuel IH]; intros s Hs.
  - destruct s; [|simpl in Hs; lia]. exists [], []. repeat split; [done|].
    apply not_occurs_find. by destruct sep.
  - simpl. destruct (find s sep) as [i|] eqn:Hi.
    + pose proof (find_Some_length _ _ _ Hi) as Hlen.
      destruct (IH (drop (i + length sep) s)) as (init & wn & -> & Hj & Hf & Hw).
      { rewrite length_drop. lia. }
      exists (take i s :: init), wn. split; [done|]. split; [|split; [|done]].
      * rewrite join_cons, <- Hj. by apply find_Some_take_drop.
      * apply Forall_cons. split; [by apply find_Some_free | done].
    + exists [], s. repeat split; [done|]. by apply not_occurs_find.
Qed.

End Strings.


Section Coordinates.
Implicit Types url pre lat lon tl : str.









End Coordinates.

Section Monad.
Context {W : Type}.

Lemma bind_Return {A B} (m : M W A) (f : A -> M W B) st b st' :
  (m ≫= f) st = (Return b, st') ->
  exists a st1, m st = (Return a, st1) /\ f a st1 = (Return b, st').
Proof.
  unfold mbind, M_bind. destruct (m st) as [[a|e|status|] st1]; [eauto|done..].
Qed.

Lemma lift_Return {A} (r : result A) (st : state W) a st' :
  lift r st = (Return a, st') -> r = Ok a /\ st' = st.
Proof. unfold lift. destruct r; intros [= -> ->]; done. Qed.

Lemma ret_Return {A} (x : A) (st : state W) a st' :
  (mret x : M W A) st = (Return a, st') -> a = x /\ st' = st.
Proof. by intros [= -> ->]. Qed.

End Monad.

Section CategoryLocation.
Context {W : Type} `{!Environment W}.

Lemma category_location_pieces init wn :
  Forall (fun w => ~ occurs (lit " in ") (w ++ lit " in")) init ->
  ~ occurs (lit " in ") wn ->
  category_of (join (lit " in ") (init ++ [wn])) = Ok (strip (List.hd wn init))
  /\ location_of (join (lit " in ") (init ++ [wn])) = Ok (strip wn).
Proof.
  intros Hinit Hwn. unfold category_of, location_of.
  rewrite split_Ok by done. cbn [mbind result_bind].
  rewrite split_loop_join by done. split.
  - destruct init; simpl app; rewrite getitem_0; done.
  - rewrite (getitem_last _ wn) by apply last_snoc. done.
Qed.

Lemma read_listing_category_location search_for listing
    (st st' : state W) b :
  read_listing search_for listing st = (Return b, st') ->
  category_of search_for = Ok (default [] (category b))
  /\ location_of search_for = Ok (default [] (location b))
  /\ is_Some (category b) /\ is_Some (location b).
Proof.
  unfold read_listing. intros H.
  repeat (apply bind_Return in H as (? & ? & ? & H)).
  apply ret_Return in H as [-> _]. simpl.
  repeat match goal with
         | H : lift _ _ = (Return _, _) |- _ => apply lift_Return in H as [H _]
         end.
  eauto.
Qed.

End CategoryLocation.

(** ** C5: [extract_coordinates_from_url] *)




(** ** C6: category and location *)

(** C6, as amended.  Write the search term as pieces joined by
    [" in "], no piece making an occurrence of [" in "] of its own
    (nothing, when the term holds none); every term is written so, as
    [str.split] cuts it.  The category is the first piece and the
    location the last, each stripped: with no [" in "] both are the
    whole term, with one they are what stands before and after it, with
    more the category stops at the first and the location starts after
    the last.  Every record read for the term carries the two. *)
Theorem category_and_location_of_search_term :
  (forall (init : list str) (wn : str),
      Forall (fun w => ~ occurs (lit " in ") (w ++ lit " in")) init ->
      ~ occurs (lit " in ") wn ->
      let search_for := join (lit " in ") (init ++ [wn]) in
      category_of search_for = Ok (strip (List.hd wn init))
      /\ location_of search_for = Ok (strip wn)
      /\ (forall (W : Type) (E : Environment W) listing (st st' : state W) b,
            read_listing search_for listing st = (Return b, st') ->
            category b = Some (strip (List.hd wn init))
            /\ location b = Some (strip wn)))
  /\ (forall search_for : str, exists init wn,
        search_for = join (lit " in ") (init ++ [wn])
        /\ Forall (fun w => ~ occurs (lit " in ") (w ++ lit " in")) init
        /\ ~ occurs (lit " in ") wn).
Proof.
  split.
  - intros init wn Hinit Hwn search_for.
    destruct (category_location_pieces init wn Hinit Hwn) as [Hc Hl].
    fold search_for in Hc, Hl. split; [done|]. split; [done|].
    intros W E listing st st' b Hb.
    destruct (read_listing_category_location _ _ _ _ _ Hb)
      as (Hc' & Hl' & [c Hcb] & [l Hlb]).
    rewrite Hcb in Hc' |- *. rewrite Hlb in Hl' |- *. simpl in Hc', Hl'.
    split; congruence.
  - intros search_for.
    destruct (split_loop_pieces (lit " in ") ltac:(done)
                (length search_for) search_for)
      as (init & wn & _ & Hj & Hf & Hw); [done|].
    by exists init, wn.
Qed.

(** The phrase of the specification's scenario. *)
Lemma category_and_location_of_search_term_witness :
  category_of (lit "bakery in Paris") = Ok (lit "bakery")
  /\ location_of (lit "bakery in Paris") = Ok (lit "Paris").
Proof.
  destruct category_and_location_of_search_term as [Hpieces _].
  destruct (Hpieces [lit "bakery"] (lit "Paris")) as (Hc & Hl & _).
  - apply Forall_cons. split; [|apply Forall_nil_2].
    apply not_occurs_find. vm_compute. reflexivity.
  - apply not_occurs_find. vm_compute. reflexivity.
  - split; [exact Hc | exact Hl].
Defined.

(** C6, as stated, fails on a term with two occurrences of [" in "]:
    however the term is cut at one occurrence, the category and the
    location are not both what stands before and after it. *)
Lemma category_location_of_two_occurrences :
  category_of (lit "shops in mall in Paris") = Ok (lit "shops")
  /\ location_of (lit "shops in mall in Paris") = Ok (lit "Paris")
  /\ ~ exists pre post,
         lit "shops in mall in Paris" = pre ++ lit " in " ++ post
         /\ category_of (lit "shops in mall in Paris") = Ok (strip pre)
         /\ location_of (lit "shops in mall in Paris") = Ok (strip post).
Proof.
  assert (category_of (lit "shops in mall in Paris") = Ok (lit "shops")) as Hc
    by (vm_compute; reflexivity).
  assert (location_of (lit "shops in mall in Paris") = Ok (lit "Paris")) as Hl
    by (vm_compute; reflexivity).
  split; [done|]. split; [done|].
  intros (pre & post & Heq & Hc' & Hl'). rewrite Hc in Hc'. rewrite Hl in Hl'.
  clear Hc Hl. vm_compute in Heq.
  repeat (destruct pre as [|? pre];
          [ simpl in Heq; try discriminate Heq;
            injection Heq as <-; vm_compute in Hc', Hl'; discriminate
          | simpl in Heq; try discriminate Heq; injection Heq as <- Heq ]).
Qed.

(** ** C1: the fingerprint *)

Section Fingerprint.
Implicit Types a b : Business.

(** The tuples of two records are equal exactly when the records agree
    by the rule: each tag starts with the name of its field, so a tag
    is never mistaken for the tag of another field. *)
Lemma hash_fields_same_contact a b :
  hash_fields a = hash_fields b <-> same_contact a b.
Proof.
  destruct a as [na ? da wa pa ? ? ? ? ? ?], b as [nb ? db wb pb ? ? ? ? ? ?].
  unfold same_contact, same_field, hash_fields;
    cbn [name domain website phone_number].
  destruct da as [[|? ?]|], db as [[|? ?]|], wa as [[|? ?]|], wb as [[|? ?]|],
    pa as [[|? ?]|], pb as [[|? ?]|]; cbn;
    (split;
     [ intros [=]; subst; intuition (auto; discriminate)
     | intros (-> & H1 & H2 & H3);
       destruct H1 as [[? ?]|[? ?]], H2 as [[? ?]|[? ?]], H3 as [[? ?]|[? ?]];
       simplify_eq; reflexivity ]).
Qed.






End Fingerprint.

(** ** C2: the collection *)

Section Collection.
Variable py_hash : list (option str) -> Z.
Local Abbreviation fp := (Business_hash py_hash).

Lemma add_business_seen bl b :
  fp b ∈ _seen_businesses bl -> add_business py_hash bl b = bl.
Proof.
  intros Hin. unfold add_business. by rewrite decide_False by set_solver.
Qed.

Lemma add_business_fresh bl b :
  fp b ∉ _seen_businesses bl ->
  add_business py_hash bl b
  = {| business_list := business_list bl ++ [b];
       _seen_businesses := _seen_businesses bl ∪ {[fp b]} |}.
Proof. intros Hin. unfold add_business. by rewrite decide_True. Qed.

Lemma add_business_seen_exact bl b :
  seen_exact py_hash bl -> seen_exact py_hash (add_business py_hash bl b).
Proof.
  intros Hs. destruct (decide (fp b ∈ _seen_businesses bl)) as [Hin|Hin].
  - by rewrite add_business_seen.
  - rewrite add_business_fresh by done. intros h. unfold fingerprints.
    cbn [business_list _seen_businesses].
    rewrite map_app, elem_of_union, elem_of_app.
    specialize (Hs h). unfold fingerprints in Hs. set_solver.
Qed.

Lemma add_business_NoDup bl b :
  seen_exact py_hash bl ->
  NoDup (fingerprints py_hash (business_list bl)) ->
  NoDup (fingerprints py_hash (business_list (add_business py_hash bl b))).
Proof.
  intros Hs Hn. destruct (decide (fp b ∈ _seen_businesses bl)) as [Hin|Hin].
  - by rewrite add_business_seen.
  - rewrite add_business_fresh by done. unfold fingerprints in *.
    cbn [business_list]. rewrite map_app. apply NoDup_app.
    split; [done|]. split; [|apply NoDup_singleton].
    intros h Hh ->%list_elem_of_singleton. apply Hin, Hs, Hh.
Qed.

Lemma foldl_add_business_invariant bs bl :
  seen_exact py_hash bl ->
  NoDup (fingerprints py_hash (business_list bl)) ->
  seen_exact py_hash (foldl (add_business py_hash) bl bs)
  /\ NoDup (fingerprints py_hash
              (business_list (foldl (add_business py_hash) bl bs))).
Proof.
  revert bl. induction bs as [|b bs IH]; intros bl Hs Hn; [done|].
  simpl. apply IH; [by apply add_business_seen_exact|].
  by apply add_business_NoDup.
Qed.

Lemma foldl_add_business_first_occurrences bs bl :
  seen_exact py_hash bl ->
  business_list (foldl (add_business py_hash) bl bs)
  = business_list bl
    ++ first_occurrences py_hash (fingerprints py_hash (business_list bl)) bs.
Proof.
  revert bl. induction bs as [|b bs IH]; intros bl Hs; simpl.
  - by rewrite app_nil_r.
  - pose proof (add_business_seen_exact bl b Hs) as Hs'.
    destruct (decide (fp b ∈ _seen_businesses bl)) as [Hin|Hin].
    + rewrite add_business_seen by done.
      rewrite decide_True by (by apply Hs). by apply IH.
    + rewrite IH by done. rewrite add_business_fresh by done.
      cbn [business_list]. rewrite decide_False by (intros ?; by apply Hin, Hs).
      rewrite <- app_assoc. f_equal. simpl. f_equal.
      unfold fingerprints. by rewrite map_app.
Qed.

(** C2.  After any sequence of [add_business] calls on a new
    collection: no two stored records share a fingerprint; one more
    call with a fingerprint already stored changes nothing; one more
    call with a new fingerprint puts that record at the end; and the
    stored records are the records of first occurrence, in their
    order. *)
Theorem add_business_deduplicates (bs : list Business) :
  let bl := add_all py_hash bs in
  NoDup (fingerprints py_hash (business_list bl))
  /\ (forall b, fp b ∈ fingerprints py_hash (business_list bl) ->
        add_business py_hash bl b = bl)
  /\ (forall b, fp b ∉ fingerprints py_hash (business_list bl) ->
        business_list (add_business py_hash bl b) = business_list bl ++ [b])
  /\ business_list bl = first_occurrences py_hash [] bs.
Proof.
  intros bl.
  assert (seen_exact py_hash BusinessList_new) as H0.
  { intros h. unfold fingerprints. simpl. set_solver. }
  destruct (foldl_add_business_invariant bs BusinessList_new H0) as [Hs Hn];
    [apply NoDup_nil_2|].
  fold (add_all py_hash bs) in Hs, Hn. fold bl in Hs, Hn.
  split; [done|]. split; [|split].
  - intros b Hb. apply add_business_seen. by apply Hs.
  - intros b Hb. rewrite add_business_fresh; [done|].
    intros Hin. by apply Hb, Hs.
  - unfold bl, add_all. by rewrite foldl_add_business_first_occurrences.
Qed.

End Collection.

(** Three listings, the third a duplicate of the first: two records
    stay, in the order they came, and the duplicate changes nothing. *)
Lemma add_business_deduplicates_witness :
  business_list
    (add_all sample_hash
       [listed "X" "a.com"; listed "Y" ""; listed "X" "a.com"])
  = [listed "X" "a.com"; listed "Y" ""]
  /\ add_business sample_hash
       (add_all sample_hash [listed "X" "a.com"; listed "Y" ""])
       (listed "X" "a.com")
     = add_all sample_hash [listed "X" "a.com"; listed "Y" ""].
Proof.
  split.
  - destruct (add_business_deduplicates sample_hash
                [listed "X" "a.com"; listed "Y" ""; listed "X" "a.com"])
      as (_ & _ & _ & ->).
    vm_compute. reflexivity.
  - destruct (add_business_deduplicates sample_hash
                [listed "X" "a.com"; listed "Y" ""])
      as (_ & Hseen & _ & Hlist).
    apply Hseen. rewrite Hlist. vm_compute. apply list_elem_of_here.
Defined.

(** ** C3 and C4: the scroll loop *)

Section Scroll.
Implicit Types (counts : nat -> nat) (w : nat) (out : list output).

Lemma scroll_loop_round fuel total prev counts w out :
  scroll_loop (S fuel) total prev (State (Surface counts w) out) =
  let c := counts (S w) in
  if bool_decide (Z.of_nat c >= total)
  then let listings := map Parent (slice_to (links c) total) in
       (Return listings,
        State (Surface counts (S w))
              (out ++ [Print_total_scraped (length listings)]))
  else if bool_decide (Z.of_nat c = prev)
       then (Return (links c),
             State (Surface counts (S w))
                   (out ++ [Print_arrived_at_all (length (links c))]))
       else scroll_loop fuel total (Z.of_nat c)
              (State (Surface counts (S w))
                     (out ++ [Print_currently_scraped c])).
Proof.
  cbn [scroll_loop]. unfold all, print, do.
  unfold mbind, M_bind, mret, M_ret.
  cbv zeta.
  destruct (bool_decide (Z.of_nat (counts (S w)) >= total)) eqn:E1;
    cbn -[slice_to Z.of_nat scroll_loop]; rewrite E1;
    [reflexivity|].
  destruct (bool_decide (Z.of_nat (counts (S w)) = prev)) eqn:E2;
    cbn -[slice_to Z.of_nat scroll_loop]; rewrite E2; reflexivity.
Qed.


Lemma length_links c : length (links c) = c.
Proof. unfold links. by rewrite length_map, length_seq. Qed.

Lemma length_slice_to {A} (l : list A) (stop : Z) :
  0 <= stop -> length (slice_to l stop) = Z.to_nat (Z.min (Z.of_nat (length l)) stop).
Proof.
  intros Hs. unfold slice_to. destruct (Z.ltb_spec stop 0); [lia|].
  rewrite length_take. lia.
Qed.


Lemma counts_monotone counts k :
  (forall t, (1 <= t < k)%nat -> (counts t < counts (S t))%nat) ->
  forall t, (1 <= t <= k)%nat -> (counts t <= counts k)%nat.
Proof.
  intros Hinc. induction k as [|k IH]; intros t Ht; [lia|].
  destruct (decide (t = S k)) as [->|]; [lia|].
  assert (counts t <= counts k)%nat.
  { apply IH; [|lia]. intros t' Ht'. apply Hinc. lia. }
  specialize (Hinc k). lia.
Qed.

Lemma scroll_loop_min total counts k :
  0 < total -> (1 <= k)%nat -> (0 < counts 1)%nat ->
  (forall t, (1 <= t < k)%nat -> (counts t < counts (S t))%nat) ->
  (forall t, (k <= t)%nat -> counts t = counts k) ->
  forall d w out, (w + d = k)%nat ->
  (forall t, (1 <= t <= w)%nat -> Z.of_nat (counts t) < total) ->
  exists listings T,
    length listings = Z.to_nat (Z.min total (Z.of_nat (counts k)))
    /\ (w < T <= S k)%nat
    /\ forall fuel, (T - w <= fuel)%nat -> exists out',
       scroll_loop fuel total (previous counts w) (State (Surface counts w) out)
       = (Return listings, State (Surface counts T) out').
Proof.
  intros Htotal Hk Hpos Hinc Hstable.
  pose proof (counts_monotone counts k Hinc) as Hmono.
  induction d as [|d IH]; intros w out Hw Hbelow.
  - assert (w = k) as -> by lia.
    exists (links (counts k)), (S k). rewrite length_links.
    pose proof (Hbelow k ltac:(lia)). split; [lia|]. split; [lia|].
    intros [|fuel] Hf; [lia|]. eexists. rewrite scroll_loop_round. cbv zeta.
    rewrite (Hstable (S k)) by lia.
    rewrite bool_decide_eq_false_2 by lia.
    rewrite bool_decide_eq_true_2 by (destruct k; [lia | done]).
    done.
  - destruct (decide (Z.of_nat (counts (S w)) >= total)) as [Hge|Hlt].
    + exists (map Parent (slice_to (links (counts (S w))) total)), (S w).
      rewrite length_map, length_slice_to, length_links by lia.
      pose proof (Hmono (S w) ltac:(lia)). split; [lia|]. split; [lia|].
      intros [|fuel] Hf; [lia|]. eexists. rewrite scroll_loop_round. cbv zeta.
      by rewrite bool_decide_eq_true_2 by done.
    + destruct (IH (S w) (out ++ [Print_currently_scraped (counts (S w))]))
        as (listings & T & Hlen & HT & Hrun); [lia| |].
      { intros t Ht. destruct (decide (t = S w)) as [->|]; [lia|].
        apply Hbelow. lia. }
      exists listings, T. split; [done|]. split; [lia|].
      intros [|fuel] Hf; [lia|]. destruct (Hrun fuel) as [out' Hout]; [lia|].
      exists out'. rewrite scroll_loop_round. cbv zeta.
      rewrite bool_decide_eq_false_2 by done.
      rewrite bool_decide_eq_false_2; [done|].
      destruct w as [|w]; simpl; [lia|].
      specialize (Hinc (S w)). lia.
Qed.

End Scroll.




(** C3, as amended.  For a target above zero and counts that grow at
    every poll, from a first count above zero until they stay at the
    available count [counts k], the loop returns
    [min(total, counts k)] handles.  On the polls 5, 12, 20, 20 a
    target of 100 stops at the fourth poll, the second to count 20, with
    20 handles; a target of 10 stops at the second poll with 10. *)
Theorem scroll_loop_collects :
  (forall (total : Z) (counts : nat -> nat) (k : nat),
      0 < total -> (1 <= k)%nat -> (0 < counts 1%nat)%nat ->
      (forall t, (1 <= t < k)%nat -> (counts t < counts (S t))%nat) ->
      (forall t, (k <= t)%nat -> counts t = counts k) ->
      exists listings T,
        length listings = Z.to_nat (Z.min total (Z.of_nat (counts k)))
        /\ (1 <= T <= S k)%nat
        /\ forall fuel, (T <= fuel)%nat -> exists out,
             scroll_loop fuel total 0 (State (Surface counts 0) [])
             = (Return listings, State (Surface counts T) out))
  /\ scroll_loop 4 100 0 (State (surface_of_polls [5; 12; 20; 20]%nat) [])
     = (Return (links 20),
        State (Surface (counts (surface_of_polls [5; 12; 20; 20]%nat)) 4)
              [Print_currently_scraped 5; Print_currently_scraped 12;
               Print_currently_scraped 20; Print_arrived_at_all 20])
  /\ scroll_loop 2 10 0 (State (surface_of_polls [5; 12; 20; 20]%nat) [])
     = (Return (map Parent (links 10)),
        State (Surface (counts (surface_of_polls [5; 12; 20; 20]%nat)) 2)
              [Print_currently_scraped 5; Print_total_scraped 10]).
Proof.
  split; [|split; vm_compute; reflexivity].
  intros total counts k Htotal Hk Hpos Hinc Hstable.
  destruct (scroll_loop_min total counts k Htotal Hk Hpos Hinc Hstable
              k 0%nat [])
    as (listings & T & Hlen & HT & Hrun); [lia | intros; lia |].
  exists listings, T. split; [done|]. split; [lia|].
  intros fuel Hf. apply (Hrun fuel). lia.
Qed.

(** The panel of the specification: twenty handles for a target of a
    hundred. *)
Lemma scroll_loop_collects_witness :
  exists listings st,
    scroll_loop 4 100 0 (State (surface_of_polls [5; 12; 20; 20]%nat) [])
    = (Return listings, st)
    /\ length listings = 20%nat.
Proof.
  destruct scroll_loop_collects as [Hmin _].
  destruct (Hmin 100 (counts (surface_of_polls [5; 12; 20; 20]%nat)) 3%nat)
    as (listings & T & Hlen & HT & Hrun).
  - lia.
  - lia.
  - simpl. lia.
  - intros t Ht. do 3 (destruct t as [|t]; [simpl; lia|]). lia.
  - intros t Ht. do 3 (destruct t as [|t]; [lia|]).
    do 2 (destruct t as [|t]; [reflexivity|]). simpl. by destruct t.
  - destruct (Hrun 4%nat) as [out Hout]; [lia|].
    exists listings, (State (Surface (counts (surface_of_polls [5; 12; 20; 20]%nat)) T) out).
    split; [exact Hout | exact Hlen].
Defined.

(** C3, as stated, fails.  On the polls 5, 12, 20, 20 with a target of
    100 the third poll does not end the loop: it prints the count and
    scrolls again, and three rounds are not enough.  On the polls
    5, 5, 20, 20 the loop returns 5 handles, not the 20 available; on
    the polls 0, 5, 5 it returns none, the first count being the initial
    [previously_counted]; and a target of -3 is reached at the first
    poll, whose last three handles the slice leaves out. *)
Lemma scroll_loop_goes_on_after_third_poll :
  scroll_loop 3 100 0 (State (surface_of_polls [5; 12; 20; 20]%nat) [])
  = (OutOfFuel,
     State (Surface (counts (surface_of_polls [5; 12; 20; 20]%nat)) 3)
           [Print_currently_scraped 5; Print_currently_scraped 12;
            Print_currently_scraped 20])
  /\ scroll_loop 4 100 0 (State (surface_of_polls [5; 5; 20; 20]%nat) [])
     = (Return (links 5),
        State (Surface (counts (surface_of_polls [5; 5; 20; 20]%nat)) 2)
              [Print_currently_scraped 5; Print_arrived_at_all 5])
  /\ scroll_loop 4 100 0 (State (surface_of_polls [0; 5; 5]%nat) [])
     = (Return [],
        State (Surface (counts (surface_of_polls [0; 5; 5]%nat)) 1)
              [Print_arrived_at_all 0])
  /\ scroll_loop 4 (-3) 0 (State (surface_of_polls [5; 12; 20; 20]%nat) [])
     = (Return (map Parent (links 2)),
        State (Surface (counts (surface_of_polls [5; 12; 20; 20]%nat)) 1)
              [Print_total_scraped 2]).
Proof. repeat split; vm_compute; reflexivity. Qed.

(** ** C9: the export *)

Section Frames.

Lemma asdict_keys b : map fst (asdict b) = field_names.
Proof. done. Qed.

Lemma add_keys_field_names_new : add_keys [] field_names = field_names.
Proof. by vm_compute. Qed.

Lemma add_keys_field_names_again : add_keys field_names field_names = field_names.
Proof. by vm_compute. Qed.

Lemma columns_of_records (l : list Business) :
  foldl (fun columns d => add_keys columns (map fst d)) field_names (map asdict l)
  = field_names.
Proof.
  induction l as [|b l IH]; [done|]. cbn [map foldl].
  by rewrite asdict_keys, add_keys_field_names_again.
Qed.

Lemma dataframe_columns (bl : BusinessList) :
  columns (dataframe bl)
  = match business_list bl with [] => [] | _ :: _ => field_names end.
Proof.
  unfold dataframe, json_normalize. cbn [columns].
  destruct (business_list bl) as [|b l]; [done|]. cbn [map foldl].
  by rewrite asdict_keys, add_keys_field_names_new, columns_of_records.
Qed.

Lemma row_of_record b :
  map (fun key => default (PFloat NaN) (dict_get (asdict b) key)) field_names
  = field_values b.
Proof. destruct b. by vm_compute. Qed.

Lemma dataframe_rows (bl : BusinessList) :
  rows (dataframe bl) = map field_values (business_list bl).
Proof.
  pose proof (dataframe_columns bl) as Hc.
  unfold dataframe, json_normalize in *. cbn [columns rows] in *.
  destruct (business_list bl) as [|b l]; [done|]. rewrite Hc, map_map.
  apply map_ext. intros b'. apply row_of_record.
Qed.

End Frames.




(** ** C7, C8 and C10: the listings and the process *)

Section Listings.
Context {W : Type} `{!Environment W}.
Variable py_hash : list (option str) -> Z.

Lemma settles_ret {A} (a : A) : settles (mret a : M W A).
Proof. intros st. exists st. left. by exists a. Qed.

Lemma settles_do {A} (c : call W A) : settles (do c).
Proof.
  intros st. unfold do. destruct (c (world st)) as [[a|e] w]; eauto.
Qed.

Lemma settles_lift {A} (r : result A) : settles (lift r : M W A).
Proof. intros st. unfold lift. destruct r; eauto. Qed.

Lemma settles_print o : settles (print o : M W unit).
Proof. intros st. unfold print. eauto. Qed.

Lemma settles_bind {A B} (m : M W A) (f : A -> M W B) :
  settles m -> (forall a, settles (f a)) -> settles (m ≫= f).
Proof.
  intros Hm Hf st. unfold mbind, M_bind.
  destruct (Hm st) as [st' [[a ->]|[e ->]]]; [apply Hf | eauto].
Qed.

Lemma settles_fmap {A B} (g : A -> B) (m : M W A) :
  settles m -> settles (g <$> m).
Proof. intros Hm. apply settles_bind; [done | intros; apply settles_ret]. Qed.

Create HintDb settles discriminated.
#[local] Hint Resolve settles_ret settles_do settles_lift settles_print
  settles_fmap : settles.

(** Binds are taken apart one by one; the hints close the calls. *)
Ltac settle :=
  repeat first
    [ apply settles_bind; [|intros ?]
    | case_bool_decide
    | solve [auto with settles] ].

Lemma settles_first_inner_text xpath : settles (first_inner_text xpath).
Proof. unfold first_inner_text, all. settle. Qed.

#[local] Hint Resolve settles_first_inner_text : settles.

Lemma settles_read_listing search_for listing :
  settles (read_listing search_for listing).
Proof. unfold read_listing. settle. Qed.

Lemma scrape_listing_raised search_for bl listing st e st1 :
  read_listing search_for listing st = (Raise e, st1) ->
  scrape_listing py_hash search_for bl listing st
  = (Return bl, State (world st1) (stdout st1 ++ [Print_error_occurred e])).
Proof.
  intros Hr. unfold scrape_listing, try_except, mbind, M_bind. by rewrite Hr.
Qed.

Lemma scrape_listing_returned search_for bl listing st b st1 :
  read_listing search_for listing st = (Return b, st1) ->
  scrape_listing py_hash search_for bl listing st
  = (Return (add_business py_hash bl b), st1).
Proof.
  intros Hr. unfold scrape_listing, try_except, mbind, M_bind. by rewrite Hr.
Qed.

Lemma scrape_listing_total search_for bl listing st :
  exists bl' st', scrape_listing py_hash search_for bl listing st = (Return bl', st').
Proof.
  destruct (settles_read_listing search_for listing st) as [st1 [[b Hb]|[e He]]].
  - rewrite (scrape_listing_returned _ _ _ _ _ _ Hb). eauto.
  - rewrite (scrape_listing_raised _ _ _ _ _ _ He). eauto.
Qed.

(** C7.  When the click and read of a listing raise, the [except]
    catches the exception, prints it and leaves the collection as it
    was, and the loop goes on with the listings that remain, in the
    state the failed listing left; the loop over the listings always
    runs to its end and returns the collection. *)
Theorem listing_failure_is_contained :
  (forall search_for bl listing rest st e st1,
      read_listing search_for listing st = (Raise e, st1) ->
      scrape_listing py_hash search_for bl listing st
      = (Return bl, State (world st1) (stdout st1 ++ [Print_error_occurred e]))
      /\ scrape_listings py_hash search_for bl (listing :: rest) st
         = scrape_listings py_hash search_for bl rest
             (State (world st1) (stdout st1 ++ [Print_error_occurred e])))
  /\ (forall search_for listings bl st, exists bl' st',
         scrape_listings py_hash search_for bl listings st = (Return bl', st')).
Proof.
  split.
  - intros search_for bl listing rest st e st1 Hr.
    pose proof (scrape_listing_raised search_for bl listing st e st1 Hr) as Hs.
    split; [done|]. cbn [scrape_listings]. unfold mbind at 1, M_bind at 1.
    by rewrite Hs.
  - intros search_for listings. induction listings as [|l ls IH]; intros bl st.
    + exists bl, st. done.
    + cbn [scrape_listings]. unfold mbind at 1, M_bind at 1.
      destruct (scrape_listing_total search_for bl l st) as (bl1 & st1 & ->).
      apply IH.
Qed.

(** C8, as amended.  With no search phrase and no line read from
    [input.txt], the program prints the error and ends in [sys.exit()]
    before any call of the browser: the world is as it was, only the
    error line was printed, and the status of the process is 0. *)
Theorem no_search_phrase_exits fuel p st :
  truthy (search p) = false ->
  input_txt p = None \/ input_txt p = Some [] ->
  run py_hash fuel p st
  = (SysExit None, State (world st) (stdout st ++ [Print_input_error]))
  /\ exit_status (fst (run py_hash fuel p st)) = Some 0.
Proof.
  intros Hs Hin.
  assert (run py_hash fuel p st
          = (SysExit None, State (world st) (stdout st ++ [Print_input_error])))
    as ->; [|done].
  unfold run, try_except, main, resolve_search_list. rewrite Hs.
  by destruct Hin as [-> | ->].
Qed.

(** C10.  A total of 0 is falsy: the target becomes the 1,000,000 of
    a run without a total, and the whole run is the run without one. *)
Theorem total_zero_means_no_total fuel search input_txt save_at st :
  resolve_total (Some 0) = 1000000
  /\ resolve_total None = 1000000
  /\ run py_hash fuel
       {| search := search; total := Some 0;
          input_txt := input_txt; save_at := save_at |} st
     = run py_hash fuel
         {| search := search; total := None;
            input_txt := input_txt; save_at := save_at |} st.
Proof. done. Qed.

End Listings.

(** Two listings of the simulated panel, whose page has no URL to read
    coordinates from: both fail, both are reported, the collection
    stays empty. *)
Lemma listing_failure_is_contained_witness :
  scrape_listings sample_hash (lit "bakery in Paris") BusinessList_new
    [Nth (Locator place_links) 0; Nth (Locator place_links) 1]
    (State (surface_of_polls [2%nat]) [])
  = (Return BusinessList_new,
     State (surface_of_polls [2%nat])
           [Print_error_occurred (ValueError_float []);
            Print_error_occurred (ValueError_float [])]).
Proof.
  destruct (listing_failure_is_contained (W := surface) sample_hash)
    as [Hstep _].
  rewrite (proj2 (Hstep (lit "bakery in Paris") BusinessList_new
                    (Nth (Locator place_links) 0)
                    [Nth (Locator place_links) 1]
                    (State (surface_of_polls [2%nat]) [])
                    (ValueError_float [])
                    (State (surface_of_polls [2%nat]) [])
                    ltac:(vm_compute; reflexivity))).
  vm_compute. reflexivity.
Defined.

(** A run with no argument and no [input.txt]. *)
Lemma no_search_phrase_exits_witness :
  run sample_hash 0 no_input (State (surface_of_polls []) [])
  = (SysExit None, State (surface_of_polls []) [Print_input_error]).
Proof.
  apply (no_search_phrase_exits (W := surface) sample_hash 0 no_input
           (State (surface_of_polls []) [])).
  - reflexivity.
  - left. reflexivity.
Defined.

(** C8, as stated, fails: the status the process ends with on that
    path is 0. *)
Lemma no_search_phrase_exit_status_is_zero :
  exit_status (fst (run sample_hash 0 no_input
                      (State (surface_of_polls []) [])))
  = Some 0.
Proof. reflexivity. Qed.

(* ================================================================== *)
(** * Part V. More of the program *)
(* ================================================================== *)

(** ** [str.replace], [str.strip] and [str.split()] on words *)

Section Words.
Implicit Types s w rest cur ws : str.

Lemma join_cons_more sep p (l : list str) :
  l <> [] -> join sep (p :: l) = p ++ sep ++ join sep l.
Proof. by destruct l. Qed.

(** Replacing one character: each of its occurrences gives [new], the
    other characters stay. *)
Lemma replace_char s (a : ascii) new :
  replace s [a] new = flat_map (fun c => if decide (c = a) then new else [c]) s.
Proof.
  unfold replace. remember (length s) as n eqn:Hn. revert s Hn.
  induction n as [n IH] using lt_wf_ind. intros s ->.
  destruct (decide (a ∈ s)) as [Hin|Hnin].
  - destruct (first_occurrence _ _ Hin) as (pre & post & -> & Hpre).
    rewrite split_loop_cut_char by done.
    rewrite join_cons_more by apply split_loop_nonempty.
    rewrite (IH (length post)); [| rewrite length_app; simpl; lia | done].
    rewrite flat_map_app. simpl. rewrite decide_True by done. f_equal.
    clear -Hpre. induction pre as [|c pre IHp]; [done|].
    simpl. apply not_elem_of_cons in Hpre as [Hc Hpre].
    rewrite decide_False by done. simpl. f_equal. by apply IHp.
  - rewrite split_loop_none_char by done. simpl.
    clear -Hnin. induction s as [|c s IHs]; [done|].
    simpl. apply not_elem_of_cons in Hnin as [Hc Hs].
    rewrite decide_False by done. simpl. f_equal. by apply IHs.
Qed.

Lemma replace_char_char s (a b : ascii) :
  replace s [a] [b] = map (swap_char a b) s.
Proof.
  rewrite replace_char. induction s as [|c s IH]; [done|].
  simpl. unfold swap_char at 1. rewrite IH. by destruct (decide (c = a)).
Qed.

Lemma replace_char_nothing s (a : ascii) :
  replace s [a] [] = filter (fun c => c <> a) s.
Proof.
  rewrite replace_char. induction s as [|c s IH]; [done|].
  simpl. rewrite IH. rewrite filter_cons.
  destruct (decide (c = a)); [by rewrite decide_False by tauto |].
  by rewrite decide_True.
Qed.

Lemma lstrip_by_solid sp s :
  Forall (fun c => sp c = false) s -> lstrip_by sp s = s.
Proof. destruct 1 as [|c s Hc _]; [done|]. simpl. by rewrite Hc. Qed.

Lemma strip_solid s : solid s -> strip s = s.
Proof.
  intros Hs. unfold strip, strip_by, rstrip_by.
  rewrite (lstrip_by_solid _ s) by done.
  rewrite lstrip_by_solid; [apply rev_involutive|].
  unfold solid in Hs. apply Forall_forall. intros c Hc.
  rewrite Forall_forall in Hs. apply Hs.
  apply list_elem_of_In, in_rev. by apply list_elem_of_In.
Qed.

Lemma split_ws_loop_blank ws s :
  blank ws -> split_ws_loop [] (ws ++ s) = split_ws_loop [] s.
Proof. induction 1 as [|c ws Hc _ IH]; [done|]. simpl. by rewrite Hc. Qed.

Lemma split_ws_loop_word cur w rest :
  solid w -> word_end rest -> cur <> [] \/ w <> [] ->
  split_ws_loop cur (w ++ rest) = (rev cur ++ w) :: split_ws_loop [] rest.
Proof.
  intros Hw Hrest. revert cur. induction Hw as [|c w Hc _ IH]; intros cur Hne.
  - destruct Hne as [Hne|]; [|done]. rewrite app_nil_r. simpl.
    destruct Hrest as [->|(c & rest' & -> & Hc)]; simpl.
    + by destruct cur.
    + rewrite Hc. by destruct cur.
  - simpl. rewrite Hc. rewrite IH by (by left). simpl.
    by rewrite <- app_assoc.
Qed.

(** The first word [split()] gives: what stands between the leading
    white space and the next white space. *)
Lemma split_ws_first_word ws w rest :
  blank ws -> solid w -> w <> [] -> word_end rest ->
  split_ws (ws ++ w ++ rest) = w :: split_ws rest.
Proof.
  intros. unfold split_ws. rewrite split_ws_loop_blank by done.
  rewrite split_ws_loop_word by (done || by right). done.
Qed.

Lemma split_ws_blank ws : blank ws -> split_ws ws = [].
Proof.
  intros H. unfold split_ws.
  rewrite <- (app_nil_r ws). by rewrite split_ws_loop_blank.
Qed.

End Words.

(** ** The review fields (lines 222 to 230) *)

Section Numbers.
Implicit Types s w rest ds : str.

Lemma is_digit_plain c :
  is_digit c = true ->
  to_ascii c = c /\ c_isspace c = false /\ isspace c = false
  /\ c <> "_"%char /\ c <> "-"%char /\ c <> "+"%char /\ c <> ","%char.
Proof.
  unfold is_digit, to_ascii, c_isspace, isspace, code.
  intros H. apply andb_true_iff in H as [H1 H2].
  apply N.leb_le in H1, H2.
  repeat split.
  - destruct (N.ltb_spec (N_of_ascii c) 127); [done | lia].
  - repeat match goal with
           | |- context [(?a <=? ?b)%N] => destruct (N.leb_spec a b)
           | |- context [(?a =? ?b)%N] => destruct (N.eqb_spec a b)
           end; simpl; try done; lia.
  - repeat match goal with
           | |- context [(?a <=? ?b)%N] => destruct (N.leb_spec a b)
           | |- context [(?a =? ?b)%N] => destruct (N.eqb_spec a b)
           end; simpl; try done; lia.
  - intros ->. simpl in *. lia.
  - intros ->. simpl in *. lia.
  - intros ->. simpl in *. lia.
  - intros ->. simpl in *. lia.
Qed.

Lemma span_int_digits_digits ds prev :
  Forall (fun c => is_digit c = true) ds -> prev <> "_"%char ->
  span_int_digits prev ds = Some (ds, []).
Proof.
  intros Hds. revert prev. induction Hds as [|c ds Hc _ IH]; intros prev Hp.
  - simpl. by rewrite decide_False.
  - destruct (is_digit_plain c Hc) as (_ & _ & _ & Hu & _).
    simpl. rewrite decide_False by done. rewrite Hc.
    by rewrite (IH c Hu).
Qed.

(** [int] on decimal digits, as many as it converts. *)
Lemma int_digits ds :
  Forall (fun c => is_digit c = true) ds -> ds <> [] ->
  (length ds <= int_max_str_digits)%nat ->
  int ds = Ok (Z.of_N (digits_value ds)).
Proof.
  intros Hds Hne Hlen. unfold int.
  assert (map to_ascii ds = ds) as ->.
  { clear -Hds. induction Hds as [|c ds Hc _ IH]; [done|].
    simpl. rewrite IH. by destruct (is_digit_plain c Hc) as (-> & _). }
  destruct ds as [|d ds]; [done|].
  apply Forall_cons in Hds as Hds'. destruct Hds' as [Hd _].
  destruct (is_digit_plain d Hd) as (_ & Hsp & _ & Hu & Hm & Hp & _).
  cbn [lstrip_by]. rewrite Hsp. cbn [take_sign].
  rewrite (decide_False (P := d = "-"%char)) by done.
  rewrite (decide_False (P := d = "+"%char)) by done.
  rewrite (decide_False (P := d = "_"%char)) by done.
  rewrite span_int_digits_digits by done.
  cbn [lstrip_by]. rewrite bool_decide_eq_true_2 by done.
  by rewrite bool_decide_eq_true_2 by done.
Qed.

Lemma filter_commas_digits w :
  Forall digit_or_comma w ->
  Forall (fun c => is_digit c = true) (filter (fun c => c <> ","%char) w).
Proof.
  induction 1 as [|c w Hc _ IH]; [constructor|].
  rewrite filter_cons. destruct (decide (c <> ","%char)) as [Hne|]; [|done].
  constructor; [|done]. by destruct Hc.
Qed.

Lemma digit_or_comma_solid w : Forall digit_or_comma w -> solid w.
Proof.
  induction 1 as [|c w Hc _ IH]; constructor; [|done].
  destruct Hc as [Hc| ->]; [|done].
  by destruct (is_digit_plain c Hc) as (_ & _ & ? & _).
Qed.

Lemma parse_reviews_count_first_word ws w rest :
  blank ws -> solid w -> w <> [] -> word_end rest ->
  parse_reviews_count (ws ++ w ++ rest)
  = int (filter (fun c => c <> ","%char) w).
Proof.
  intros Hws Hw Hne Hrest. unfold parse_reviews_count.
  rewrite split_ws_first_word by done. rewrite getitem_0.
  change (lit ",") with [","%char]. cbn [mbind result_bind].
  rewrite replace_char_nothing. rewrite strip_solid; [done|].
  clear -Hw. induction Hw as [|c w Hc _ IH]; [constructor|].
  rewrite filter_cons. destruct (decide _); [by constructor | done].
Qed.

Lemma parse_reviews_average_first_word ws w rest :
  blank ws -> solid w -> w <> [] -> word_end rest ->
  parse_reviews_average (Some (ws ++ w ++ rest))
  = float (map (swap_char "," ".") w).
Proof.
  intros Hws Hw Hne Hrest. unfold parse_reviews_average.
  rewrite split_ws_first_word by done. rewrite getitem_0.
  change (lit ",") with [","%char]. change (lit ".") with ["."%char].
  cbn [mbind result_bind].
  rewrite replace_char_char. rewrite strip_solid; [done|].
  clear -Hw. induction Hw as [|c w Hc _ IH]; constructor; [|done].
  unfold swap_char. by destruct (decide _).
Qed.

End Numbers.

(** X1.  The number of reviews is read from the first word of the
    element's text alone: when that word is made of digits and commas,
    the result is the number its digits write, the commas dropped,
    whatever white space stands before it and whatever text follows it
    ("1,234 reviews" gives 1234).  A text that is empty or all white
    space has no first word: the conversion raises [IndexError], which
    drops the listing. *)
Theorem reviews_count_of_first_word :
  (forall text, blank text -> parse_reviews_count text = Err IndexError)
  /\ (forall ws w rest,
        blank ws -> Forall digit_or_comma w -> word_end rest ->
        let digits := filter (fun c => c <> ","%char) w in
        digits <> [] -> (length digits <= int_max_str_digits)%nat ->
        parse_reviews_count (ws ++ w ++ rest)
        = Ok (Z.of_N (digits_value digits))).
Proof.
  split.
  - intros text Hb. unfold parse_reviews_count. by rewrite split_ws_blank.
  - intros ws w rest Hws Hw Hrest digits Hne Hlen.
    rewrite parse_reviews_count_first_word; try done.
    + apply int_digits; try done. by apply filter_commas_digits.
    + by apply digit_or_comma_solid.
    + intros ->. by apply Hne.
Qed.

Lemma reviews_count_of_first_word_witness :
  parse_reviews_count (lit " 1,234 reviews") = Ok 1234
  /\ parse_reviews_count (lit "  ") = Err IndexError.
Proof.
  destruct reviews_count_of_first_word as [Hblank Hword]. split.
  - apply (Hword (lit " ") (lit "1,234") (lit " reviews")).
    + repeat constructor.
    + repeat constructor; by vm_compute; auto.
    + right. by exists " "%char, (lit "reviews").
    + done.
    + vm_compute. lia.
  - apply Hblank. by repeat constructor.
Defined.

(** X2.  The average is read from the first word of the [aria-label]
    alone, each comma of it turned into a point before [float] reads it
    ("4,5 stars" gives 4.5).  An element without the attribute raises
    [AttributeError], a label that is empty or all white space raises
    [IndexError]; either drops the listing. *)
Theorem reviews_average_of_first_word :
  parse_reviews_average None = Err (AttributeError_None (lit "split"))
  /\ (forall text,
        blank text -> parse_reviews_average (Some text) = Err IndexError)
  /\ (forall ws w rest,
        blank ws -> solid w -> w <> [] -> word_end rest ->
        parse_reviews_average (Some (ws ++ w ++ rest))
        = float (map (swap_char "," ".") w)).
Proof.
  split; [done|]. split.
  - intros text Hb. unfold parse_reviews_average. by rewrite split_ws_blank.
  - apply parse_reviews_average_first_word.
Qed.

Lemma reviews_average_of_first_word_witness :
  parse_reviews_average (Some (lit "4,5 stars")) = Ok (Finite false 45 (-1))
  /\ parse_reviews_average (Some []) = Err IndexError.
Proof.
  destruct reviews_average_of_first_word as (_ & Hblank & Hword). split.
  - transitivity (float (map (swap_char "," ".") (lit "4,5")));
      [|by vm_compute].
    apply (Hword [] (lit "4,5") (lit " stars")).
    + constructor.
    + by repeat constructor.
    + done.
    + right. by exists " "%char, (lit "stars").
  - apply Hblank. constructor.
Defined.

(** ** File names and line ends (lines 109 to 124, 232, 233, 241, 242) *)

Section LineEnds.
Implicit Types s ws : str.

Lemma join_snoc_app sep (init : list str) wn t :
  join sep (init ++ [wn ++ t]) = join sep (init ++ [wn]) ++ t.
Proof.
  induction init as [|w init IH]; [done|].
  rewrite !join_cons, IH. by rewrite <- !app_assoc.
Qed.

Lemma occurs_snoc sep s (c : ascii) :
  c ∉ sep -> occurs sep (s ++ [c]) -> occurs sep s.
Proof.
  intros Hc (pre & post & Heq).
  destruct post as [|d post _] using rev_ind.
  - rewrite app_nil_r in Heq. destruct sep as [|d sep _] using rev_ind.
    + by exists [], s.
    + rewrite app_assoc in Heq. apply app_inj_tail in Heq as [_ ->].
      exfalso. apply Hc. apply elem_of_app. right. apply list_elem_of_here.
  - rewrite !app_assoc in Heq. apply app_inj_tail in Heq as [-> _].
    exists pre, post. by rewrite app_assoc.
Qed.

Lemma lstrip_by_snoc sp s (c : ascii) :
  sp c = true ->
  lstrip_by sp (s ++ [c])
  = match lstrip_by sp s with [] => [] | t => t ++ [c] end.
Proof.
  intros Hc. induction s as [|d s IH]; simpl; [by rewrite Hc|].
  destruct (sp d); [done|]. done.
Qed.

Lemma rstrip_by_snoc sp s (c : ascii) :
  sp c = true -> rstrip_by sp (s ++ [c]) = rstrip_by sp s.
Proof.
  intros Hc. unfold rstrip_by. rewrite rev_app_distr. simpl. by rewrite Hc.
Qed.

Lemma strip_snoc s (c : ascii) :
  isspace c = true -> strip (s ++ [c]) = strip s.
Proof.
  intros Hc. unfold strip, strip_by. rewrite lstrip_by_snoc by done.
  destruct (lstrip_by isspace s) as [|d t]; [done|].
  by rewrite rstrip_by_snoc.
Qed.

Lemma category_location_snoc s (c : ascii) :
  isspace c = true -> c <> " "%char ->
  category_of (s ++ [c]) = category_of s
  /\ location_of (s ++ [c]) = location_of s.
Proof.
  intros Hsp Hc.
  assert (c ∉ lit " in ") as Hin.
  { intros Hin. vm_compute in Hin.
    repeat (apply elem_of_cons in Hin as [->|Hin]; [done|]).
    by apply elem_of_nil in Hin. }
  destruct (split_loop_pieces (lit " in ") ltac:(done) (length s) s ltac:(done))
    as (init & wn & _ & Hs & Hinit & Hwn).
  assert (~ occurs (lit " in ") (wn ++ [c])) as Hwn'.
  { intros Ho. by apply Hwn, (occurs_snoc _ _ c). }
  pose proof (category_location_pieces init wn Hinit Hwn) as [Hc1 Hl1].
  pose proof (category_location_pieces init (wn ++ [c]) Hinit Hwn')
    as [Hc2 Hl2].
  rewrite join_snoc_app in Hc2, Hl2. rewrite <- Hs in *.
  rewrite Hc1, Hc2, Hl1, Hl2. rewrite strip_snoc by done.
  split; [|done]. destruct init; [|done]. simpl. by rewrite strip_snoc.
Qed.

Lemma category_location_line_end s ws :
  line_end ws ->
  category_of (s ++ ws) = category_of s
  /\ location_of (s ++ ws) = location_of s.
Proof.
  induction ws as [|c ws IH] using rev_ind; intros Hws.
  - by rewrite app_nil_r.
  - apply Forall_app in Hws as [Hws Hc].
    apply Forall_singleton in Hc as [Hsp Hc].
    rewrite app_assoc.
    destruct (category_location_snoc (s ++ ws) c Hsp Hc) as [-> ->].
    by apply IH.
Qed.

End LineEnds.

(** X3.  The name of the two files of a search term is the term with
    each blank turned into an underscore and every other character
    kept: it has the length of the term and no blank, and a term that
    differs from another by blanks written as underscores gets the same
    file name. *)
Theorem file_name_of_search_term (search_for : str) :
  let file_name := replace search_for (lit " ") (lit "_") in
  file_name = map (swap_char " " "_") search_for
  /\ length file_name = length search_for
  /\ (" "%char ∉ file_name)
  /\ replace file_name (lit " ") (lit "_") = file_name.
Proof.
  change (lit " ") with [" "%char]. change (lit "_") with ["_"%char].
  cbv zeta. rewrite !replace_char_char.
  split; [done|]. split; [by rewrite length_map|].
  assert (" "%char ∉ map (swap_char " " "_") search_for) as Hno.
  { intros (c & Hc & _)%list_elem_of_fmap. unfold swap_char in Hc.
    by destruct (decide (c = " "%char)). }
  split; [done|].
  induction search_for as [|c s IH]; [done|]. cbn [map].
  apply not_elem_of_cons in Hno as [Hc Hs]. f_equal; [|by apply IH].
  unfold swap_char at 1. by rewrite decide_False.
Qed.

(** X4.  With no search argument the lines of [input.txt] are the
    search terms as [readlines] gave them, line ends included.  The
    line end of a term changes neither the category nor the location
    of its records, and it stays at the end of the name of its files. *)
Theorem line_end_of_search_term :
  (forall (W : Type) (E : Environment W) (p : process) line lines
          (st : state W),
     truthy (search p) = false -> input_txt p = Some (line :: lines) ->
     resolve_search_list p st = (Return (line :: lines), st))
  /\ (forall search_for ws, line_end ws ->
        category_of (search_for ++ ws) = category_of search_for
        /\ location_of (search_for ++ ws) = location_of search_for
        /\ replace (search_for ++ ws) (lit " ") (lit "_")
           = replace search_for (lit " ") (lit "_") ++ ws).
Proof.
  split.
  - intros W E p line lines st Hs Hl. unfold resolve_search_list.
    by rewrite Hs, Hl.
  - intros s ws Hws.
    destruct (category_location_line_end s ws Hws) as [-> ->].
    split; [done|]. split; [done|].
    change (lit " ") with [" "%char]. change (lit "_") with ["_"%char].
    rewrite !replace_char_char, map_app. f_equal.
    induction Hws as [|c ws [_ Hc] _ IH]; [done|]. cbn [map].
    rewrite IH. unfold swap_char at 1. by rewrite decide_False.
Qed.

Lemma line_end_of_search_term_witness :
  resolve_search_list (reading [lit "cafe in Paris" ++ ["010"%char]])
    (State (surface_of_polls []) [])
  = (Return [lit "cafe in Paris" ++ ["010"%char]],
     State (surface_of_polls []) [])
  /\ category_of (lit "cafe in Paris" ++ ["010"%char]) = Ok (lit "cafe")
  /\ location_of (lit "cafe in Paris" ++ ["010"%char]) = Ok (lit "Paris")
  /\ replace (lit "cafe in Paris" ++ ["010"%char]) (lit " ") (lit "_")
     = lit "cafe_in_Paris" ++ ["010"%char].
Proof.
  destruct line_end_of_search_term as [Hlines H]. split.
  - apply (Hlines surface _
             (reading [lit "cafe in Paris" ++ ["010"%char]])); reflexivity.
  - destruct (H (lit "cafe in Paris") ["010"%char]) as (-> & -> & ->).
    + repeat constructor. done.
    + by vm_compute.
Defined.

(** ** The record of a listing (lines 199 to 236) *)

Section Strip.
Implicit Types s t : str.

Lemma lstrip_by_drops sp s : exists pre, s = pre ++ lstrip_by sp s.
Proof.
  induction s as [|c s [pre IH]]; [by exists []|]. simpl.
  destruct (sp c); [|by exists []]. exists (c :: pre). simpl. by f_equal.
Qed.

Lemma lstrip_by_head sp s c t : lstrip_by sp s = c :: t -> sp c = false.
Proof.
  induction s as [|d s IH]; [done|]. simpl.
  destruct (sp d) eqn:Hd; [done|]. by intros [= <- _].
Qed.

Lemma lstrip_by_fixed sp s c t :
  s = c :: t -> sp c = false -> lstrip_by sp s = s.
Proof. intros -> Hc. simpl. by rewrite Hc. Qed.

Lemma lstrip_by_twice sp s : lstrip_by sp (lstrip_by sp s) = lstrip_by sp s.
Proof.
  destruct (lstrip_by sp s) as [|c t] eqn:Hs; [done|].
  eapply lstrip_by_fixed; [done|]. by eapply lstrip_by_head.
Qed.

Lemma rstrip_by_keeps sp s : exists post, s = rstrip_by sp s ++ post.
Proof.
  unfold rstrip_by. destruct (lstrip_by_drops sp (rev s)) as [pre Hpre].
  exists (rev pre). rewrite <- rev_app_distr, <- Hpre.
  by rewrite rev_involutive.
Qed.

Lemma strip_by_twice sp s : strip_by sp (strip_by sp s) = strip_by sp s.
Proof.
  unfold strip_by.
  assert (lstrip_by sp (rstrip_by sp (lstrip_by sp s))
          = rstrip_by sp (lstrip_by sp s)) as ->.
  { destruct (rstrip_by_keeps sp (lstrip_by sp s)) as [post Hpost].
    destruct (rstrip_by sp (lstrip_by sp s)) as [|c t] eqn:Hr; [done|].
    eapply lstrip_by_fixed; [done|].
    eapply (lstrip_by_head sp s). rewrite Hpost. done. }
  unfold rstrip_by. rewrite rev_involutive. by rewrite lstrip_by_twice.
Qed.

Lemma stripped_strip s : stripped (strip s).
Proof. apply strip_by_twice. Qed.

End Strip.

Section Records.
Context {W : Type} `{!Environment W}.

Ltac returned H :=
  repeat first
    [ apply bind_Return in H as (? & ? & ? & H)
    | apply ret_Return in H as [? ?] ].

(** The record [read_listing] returns, field by field. *)
Lemma read_listing_fields search_for listing (st st' : state W) b :
  read_listing search_for listing st = (Return b, st') ->
  exists name_value address site phone rc ra cat loc coords,
    b = {| name := Some (if truthy_str name_value
                         then strip name_value else []);
           address := Some address;
           domain := site.1;
           website := Some site.2;
           phone_number := Some phone;
           category := Some cat;
           location := Some loc;
           reviews_count := rc;
           reviews_average := ra;
           latitude := Some coords.1;
           longitude := Some coords.2 |}
    /\ (site = (None, [])
        \/ exists d text, site = (Some d, lit "https://www." ++ text))
    /\ (rc = PStr [] \/ exists n, rc = PInt n)
    /\ (ra = PStr [] \/ exists f, ra = PFloat f)
    /\ category_of search_for = Ok cat
    /\ location_of search_for = Ok loc.
Proof.
  unfold read_listing. intros H.
  apply bind_Return in H as (? & ? & _ & H).
  apply bind_Return in H as (? & ? & _ & H).
  apply bind_Return in H as (name_value & ? & _ & H).
  apply bind_Return in H as (? & ? & _ & H).
  apply bind_Return in H as (address & ? & _ & H).
  apply bind_Return in H as (n1 & ? & _ & H).
  apply bind_Return in H as (site & ? & Hsite & H).
  apply bind_Return in H as (? & ? & _ & H).
  apply bind_Return in H as (phone & ? & _ & H).
  apply bind_Return in H as (n2 & ? & _ & H).
  apply bind_Return in H as (rc & ? & Hrc & H).
  apply bind_Return in H as (n3 & ? & _ & H).
  apply bind_Return in H as (ra & ? & Hra & H).
  apply bind_Return in H as (cat & ? & Hcat & H).
  apply bind_Return in H as (loc & ? & Hloc & H).
  apply bind_Return in H as (url & ? & _ & H).
  apply bind_Return in H as (coords & ? & _ & H).
  apply ret_Return in H as [-> _].
  apply lift_Return in Hcat as [Hcat _]. apply lift_Return in Hloc as [Hloc _].
  exists name_value, address, site, phone, rc, ra, cat, loc, coords.
  split; [done|]. repeat split; try done.
  - destruct (bool_decide (0 < n1)%nat).
    + right. returned Hsite. subst. eauto.
    + left. by apply ret_Return in Hsite as [-> _].
  - destruct (bool_decide (0 < n2)%nat).
    + right. apply bind_Return in Hrc as (? & ? & _ & Hrc).
      unfold fmap, M_fmap in Hrc. returned Hrc. subst. eauto.
    + left. by apply ret_Return in Hrc as [-> _].
  - destruct (bool_decide (0 < n3)%nat).
    + right. apply bind_Return in Hra as (? & ? & _ & Hra).
      unfold fmap, M_fmap in Hra. returned Hra. subst. eauto.
    + left. by apply ret_Return in Hra as [-> _].
Qed.

Lemma category_of_stripped search_for cat :
  category_of search_for = Ok cat -> stripped cat.
Proof.
  unfold category_of. destruct (Py.split _ _) as [pieces|]; [|done].
  cbn [mbind result_bind]. destruct (getitem pieces 0) as [piece|]; [|done].
  intros [= <-]. apply stripped_strip.
Qed.

Lemma location_of_stripped search_for loc :
  location_of search_for = Ok loc -> stripped loc.
Proof.
  unfold location_of. destruct (Py.split _ _) as [pieces|]; [|done].
  cbn [mbind result_bind]. destruct (getitem pieces (-1)) as [piece|]; [|done].
  intros [= <-]. apply stripped_strip.
Qed.

End Records.



(** X6.  The name, the category and the location of a record built
    from a listing have no white space at either end, whatever the page
    shows and whatever the search term is. *)
Theorem read_listing_fields_stripped {W : Type} `{!Environment W}
    (search_for : str) (listing : locator) (st st' : state W) (b : Business) :
  read_listing search_for listing st = (Return b, st') ->
  stripped (default [] (name b))
  /\ stripped (default [] (category b))
  /\ stripped (default [] (location b)).
Proof.
  intros H. apply read_listing_fields in H
    as (nv & a & site & ph & rc & ra & cat & loc & co
        & -> & _ & _ & _ & Hc & Hl).
  cbn. split; [|split].
  - destruct (truthy_str nv); [apply stripped_strip | done].
  - by eapply category_of_stripped.
  - by eapply location_of_stripped.
Qed.

Lemma read_listing_fields_stripped_witness :
  exists b st',
    read_listing (lit " cafe  in Paris ") (Nth (Locator place_links) 0)
                 (State cafe []) = (Return b, st')
    /\ stripped (default [] (name b))
    /\ stripped (default [] (category b))
    /\ stripped (default [] (location b)).
Proof.
  assert (exists b st',
    read_listing (lit " cafe  in Paris ") (Nth (Locator place_links) 0)
                 (State cafe []) = (Return b, st')) as (b & st' & H).
  { eexists _, _. by vm_compute. }
  exists b, st'. split; [done|].
  exact (read_listing_fields_stripped _ _ _ _ _ H).
Defined.

(** ** More on the collection (lines 24 to 59) *)

Section Stored.
Variable py_hash : list (option str) -> Z.
Local Abbreviation fp := (Business_hash py_hash).

Lemma add_business_records bl b :
  fp b ∈ _seen_businesses (add_business py_hash bl b).
Proof.
  destruct (decide (fp b ∈ _seen_businesses bl)) as [Hin|Hin].
  - by rewrite add_business_seen.
  - rewrite add_business_fresh by done. cbn. set_solver.
Qed.

Lemma add_business_grows bl b :
  _seen_businesses bl ⊆ _seen_businesses (add_business py_hash bl b)
  /\ business_list bl `prefix_of` business_list (add_business py_hash bl b)
  /\ (length (business_list (add_business py_hash bl b))
      <= S (length (business_list bl)))%nat.
Proof.
  destruct (decide (fp b ∈ _seen_businesses bl)) as [Hin|Hin].
  - rewrite add_business_seen by done. split; [done|]. split; [done|lia].
  - rewrite add_business_fresh by done. cbn. split; [set_solver|].
    split; [by apply prefix_app_r|]. rewrite length_app. simpl. lia.
Qed.

Lemma foldl_add_business_seen bs : forall bl,
  _seen_businesses bl ⊆ _seen_businesses (foldl (add_business py_hash) bl bs)
  /\ forall b, b ∈ bs ->
       fp b ∈ _seen_businesses (foldl (add_business py_hash) bl bs).
Proof.
  induction bs as [|b bs IH]; intros bl; simpl.
  - split; [done|]. intros b Hb. by apply elem_of_nil in Hb.
  - destruct (IH (add_business py_hash bl b)) as [Hsub Hin].
    destruct (add_business_grows bl b) as [Hg _]. split.
    + set_solver.
    + intros b' [->|Hb']%elem_of_cons; [|by apply Hin].
      apply Hsub, add_business_records.
Qed.

Lemma first_occurrences_sublist earlier bs :
  first_occurrences py_hash earlier bs `sublist_of` bs.
Proof.
  revert earlier. induction bs as [|b bs IH]; intros earlier; simpl; [done|].
  destruct (decide _); [by apply sublist_cons | by apply sublist_skip].
Qed.

Lemma seen_exact_new : seen_exact py_hash BusinessList_new.
Proof. intros h. unfold fingerprints. simpl. set_solver. Qed.

Lemma seen_exact_size bl :
  seen_exact py_hash bl ->
  NoDup (fingerprints py_hash (business_list bl)) ->
  size (_seen_businesses bl) = length (business_list bl).
Proof.
  intros Hs Hn.
  assert (_seen_businesses bl
          = list_to_set (fingerprints py_hash (business_list bl))) as ->.
  { apply set_eq. intros h. rewrite elem_of_list_to_set. apply Hs. }
  rewrite size_list_to_set by done. unfold fingerprints. by rewrite length_map.
Qed.

End Stored.

(** X7.  Once a record was offered to a collection, whatever the
    collection held before, a record that agrees with it on the name
    and on the three contact fields is dropped, whatever its address,
    category, reviews and coordinates are: two places with one name and
    one phone number are one record. *)
Theorem add_business_drops_same_contact (py_hash : list (option str) -> Z)
    (bl : BusinessList) (a b : Business) :
  same_contact a b ->
  add_business py_hash (add_business py_hash bl a) b
  = add_business py_hash bl a.
Proof.
  intros Hs%hash_fields_same_contact. apply add_business_seen.
  unfold Business_hash. rewrite <- Hs. apply add_business_records.
Qed.

Lemma add_business_drops_same_contact_witness :
  business_list
    (add_business sample_hash
       (add_business sample_hash BusinessList_new
          (at_address (listed "X" "a.com") "1 Main St"))
       (at_address (listed "X" "a.com") "2 High St"))
  = [at_address (listed "X" "a.com") "1 Main St"].
Proof.
  rewrite (add_business_drops_same_contact sample_hash BusinessList_new
             (at_address (listed "X" "a.com") "1 Main St")
             (at_address (listed "X" "a.com") "2 High St")).
  - by vm_compute.
  - unfold same_contact, same_field. split; [reflexivity|].
    split; [|split]; [right|left|left]; split; reflexivity.
Defined.

(** X8.  After any sequence of [add_business] calls on a new
    collection, the set of seen hashes has as many elements as the list
    has records; the list is a subsequence of the records offered, in
    their order, so it is no longer than their sequence; and no
    fingerprint is lost: each record offered has its fingerprint on a
    stored record. *)
Theorem add_all_keeps_first_records (py_hash : list (option str) -> Z)
    (bs : list Business) :
  let bl := add_all py_hash bs in
  size (_seen_businesses bl) = length (business_list bl)
  /\ business_list bl `sublist_of` bs
  /\ (length (business_list bl) <= length bs)%nat
  /\ fingerprints py_hash bs ⊆ fingerprints py_hash (business_list bl).
Proof.
  intros bl. unfold bl, add_all.
  pose proof (seen_exact_new py_hash) as H0.
  destruct (foldl_add_business_invariant py_hash bs BusinessList_new H0)
    as [Hs Hn]; [constructor|].
  assert (business_list (foldl (add_business py_hash) BusinessList_new bs)
          `sublist_of` bs) as Hsub.
  { rewrite (foldl_add_business_first_occurrences py_hash) by done.
    apply first_occurrences_sublist. }
  split; [by apply (seen_exact_size py_hash)|]. split; [done|].
  split; [by apply sublist_length|].
  intros h (b & -> & Hb)%list_elem_of_fmap. apply Hs.
  by apply foldl_add_business_seen.
Qed.

(** ** The loop over the listings (lines 184 to 238) *)

Section Scraped.
Context {W : Type} `{!Environment W}.
Variable py_hash : list (option str) -> Z.

Lemma scrape_listing_cases search_for bl listing (st : state W) :
  exists bl' st',
    scrape_listing py_hash search_for bl listing st = (Return bl', st')
    /\ (bl' = bl \/ exists b, bl' = add_business py_hash bl b).
Proof.
  destruct (settles_read_listing search_for listing st)
    as [st1 [[b Hb]|[e He]]].
  - rewrite (scrape_listing_returned _ _ _ _ _ _ _ Hb). eauto 6.
  - rewrite (scrape_listing_raised _ _ _ _ _ _ _ He). eauto 6.
Qed.

Lemma scrape_listings_invariant search_for listings : forall bl (st : state W),
  exists bl' st',
    scrape_listings py_hash search_for bl listings st = (Return bl', st')
    /\ business_list bl `prefix_of` business_list bl'
    /\ (length (business_list bl')
        <= length (business_list bl) + length listings)%nat
    /\ (seen_exact py_hash bl ->
        NoDup (fingerprints py_hash (business_list bl)) ->
        seen_exact py_hash bl'
        /\ NoDup (fingerprints py_hash (business_list bl'))).
Proof.
  induction listings as [|listing listings IH]; intros bl st.
  - exists bl, st. split; [done|]. split; [done|]. split; [simpl; lia|done].
  - destruct (scrape_listing_cases search_for bl listing st)
      as (bl1 & st1 & H1 & Hbl1).
    destruct (IH bl1 st1) as (bl' & st' & H' & Hpre & Hlen & Hinv).
    exists bl', st'. cbn [scrape_listings]. unfold mbind, M_bind.
    rewrite H1. split; [done|].
    destruct Hbl1 as [->|[b ->]].
    + split; [done|]. split; [simpl; lia|done].
    + destruct (add_business_grows py_hash bl b) as (_ & Hp & Hl).
      split; [by etransitivity|]. split; [simpl; lia|].
      intros Hs Hn. apply Hinv.
      * by apply add_business_seen_exact.
      * by apply add_business_NoDup.
Qed.

Lemma scrape_listings_returns search_for listings bl (st : state W) :
  exists bl' st',
    scrape_listings py_hash search_for bl listings st = (Return bl', st').
Proof.
  destruct (scrape_listings_invariant search_for listings bl st)
    as (bl' & st' & H' & _). eauto.
Qed.

End Scraped.

(** X9.  The loop over the listings never removes or reorders what the
    collection held: the list it started with is a prefix of the list
    it returns, which has one more record per listing at most.
    Started on a new collection, as the program does for each search
    term, it returns at most as many records as there were listings,
    no two of them with the same fingerprint, and a set of seen hashes
    of the size of the list. *)
Theorem scrape_listings_collects {W : Type} `{!Environment W}
    (py_hash : list (option str) -> Z) (search_for : str)
    (listings : list locator) (bl : BusinessList) (st : state W) :
  (exists bl' st',
     scrape_listings py_hash search_for bl listings st = (Return bl', st')
     /\ business_list bl `prefix_of` business_list bl'
     /\ (length (business_list bl')
         <= length (business_list bl) + length listings)%nat)
  /\ (exists bl' st',
        scrape_listings py_hash search_for BusinessList_new listings st
        = (Return bl', st')
        /\ (length (business_list bl') <= length listings)%nat
        /\ NoDup (fingerprints py_hash (business_list bl'))
        /\ size (_seen_businesses bl') = length (business_list bl')).
Proof.
  split.
  - destruct (scrape_listings_invariant py_hash search_for listings bl st)
      as (bl' & st' & H' & Hpre & Hlen & _). eauto.
  - destruct (scrape_listings_invariant py_hash search_for listings
                BusinessList_new st) as (bl' & st' & H' & _ & Hlen & Hinv).
    destruct Hinv as [Hs Hn]; [apply seen_exact_new | constructor |].
    exists bl', st'. split; [done|]. split; [done|]. split; [done|].
    by apply (seen_exact_size py_hash).
Qed.

(** ** More on the scroll loop (lines 103 to 107, 144 to 182) *)

Section ScrollShape.

(** What the loop returns on the simulated panel, whenever it
    returns. *)
Lemma scroll_loop_returned fuel total counts :
  forall prev w out listings st',
  scroll_loop fuel total prev (State (Surface counts w) out)
  = (Return listings, st') ->
  exists T, (w < T <= w + fuel)%nat
    /\ world st' = Surface counts T
    /\ (forall t, (w < t < T)%nat -> Z.of_nat (counts t) < total)
    /\ ((listings = map Parent (slice_to (links (counts T)) total)
         /\ total <= Z.of_nat (counts T))
        \/ (listings = links (counts T) /\ Z.of_nat (counts T) < total)).
Proof.
  induction fuel as [|fuel IH]; intros prev w out listings st' H; [done|].
  rewrite scroll_loop_round in H. cbv zeta in H.
  case_bool_decide as Htotal.
  - injection H as <- <-. exists (S w).
    split; [lia|]. split; [done|]. split; [lia|]. left. split; [done|lia].
  - case_bool_decide as Hprev.
    + injection H as <- <-. exists (S w).
      split; [lia|]. split; [done|]. split; [lia|]. right. split; [done|lia].
    + apply IH in H as (T & HT & Hw & Hbelow & Hshape).
      exists T. split; [lia|]. split; [done|]. split; [|done].
      intros t Ht. destruct (decide (t = S w)) as [->|]; [lia|].
      apply Hbelow. lia.
Qed.

Lemma length_slice_to_le {A} (l : list A) stop :
  (length (slice_to l stop) <= length l)%nat.
Proof. unfold slice_to. rewrite length_take. lia. Qed.

End ScrollShape.

(** X10.  On the simulated panel, whenever the scroll loop returns, it
    does so at a poll [T] before which every count was below the
    target, with no more handles than the panel counted at [T] and,
    for a target that is not negative, no more than the target.  The
    handles are the parents of the first links when the count reached
    the target, and the links themselves, not their parents, when the
    loop stopped below it. *)
Theorem scroll_loop_returns_bounded (fuel : nat) (total : Z)
    (counts : nat -> nat) (listings : list locator) (st' : state surface) :
  scroll_loop fuel total 0 (State (Surface counts 0) [])
  = (Return listings, st') ->
  exists T, (1 <= T <= fuel)%nat
    /\ world st' = Surface counts T
    /\ (forall t, (1 <= t < T)%nat -> Z.of_nat (counts t) < total)
    /\ (length listings <= counts T)%nat
    /\ (0 <= total -> Z.of_nat (length listings) <= total)
    /\ ((listings = map Parent (slice_to (links (counts T)) total)
         /\ total <= Z.of_nat (counts T))
        \/ (listings = links (counts T) /\ Z.of_nat (counts T) < total)).
Proof.
  intros H. apply scroll_loop_returned in H as (T & HT & Hw & Hbelow & Hshape).
  exists T. split; [lia|]. split; [done|]. split; [intros; apply Hbelow; lia|].
  split; [|split; [|done]].
  - destruct Hshape as [[-> _]|[-> _]].
    + rewrite length_map. etransitivity; [apply length_slice_to_le|].
      by rewrite length_links.
    + by rewrite length_links.
  - intros Hpos. destruct Hshape as [[-> _]|[-> Hlt]].
    + rewrite length_map, length_slice_to by done. lia.
    + rewrite length_links. lia.
Qed.

Lemma scroll_loop_returns_bounded_witness :
  exists listings st',
    scroll_loop 4 10 0 (State (surface_of_polls [5; 12; 20; 20]%nat) [])
    = (Return listings, st')
    /\ Z.of_nat (length listings) <= 10.
Proof.
  assert (exists listings st',
    scroll_loop 4 10 0 (State (surface_of_polls [5; 12; 20; 20]%nat) [])
    = (Return listings, st')) as (listings & st' & H).
  { eexists _, _. by vm_compute. }
  exists listings, st'. split; [done|].
  destruct (scroll_loop_returns_bounded _ _ _ _ _ H)
    as (T & _ & _ & _ & _ & Hle & _).
  apply Hle. lia.
Defined.

(** X11.  A negative [--total] is kept as the target.  Every count
    reaches it, so on the simulated panel the loop stops at the first
    poll, and the slice [[:total]] drops the last [-total] of the links
    counted there: the loop returns the parents of the others, none
    when fewer were counted. *)
Theorem scroll_loop_negative_total (fuel : nat) (total : Z)
    (counts : nat -> nat) :
  total < 0 ->
  let kept := (counts 1%nat - Z.to_nat (- total))%nat in
  resolve_total (Some total) = total
  /\ scroll_loop (S fuel) total 0 (State (Surface counts 0) [])
     = (Return (map Parent (take kept (links (counts 1%nat)))),
        State (Surface counts 1) [Print_total_scraped kept]).
Proof.
  intros Hneg kept. split.
  - unfold resolve_total, truthy_int.
    destruct (Z.eqb_spec total 0); [lia | done].
  - rewrite scroll_loop_round. cbv zeta.
    rewrite bool_decide_eq_true_2 by lia.
    assert (slice_to (links (counts 1%nat)) total
            = take kept (links (counts 1%nat))) as ->.
    { unfold slice_to. rewrite length_links.
      destruct (Z.ltb_spec total 0); [|lia]. f_equal. unfold kept. lia. }
    rewrite length_map, length_take, length_links.
    replace (kept `min` counts 1%nat)%nat with kept by (unfold kept; lia).
    done.
Qed.

Lemma scroll_loop_negative_total_witness :
  scroll_loop 1 (-2) 0 (State (surface_of_polls [5; 12]%nat) [])
  = (Return (map Parent (links 3)),
     State (Surface (counts (surface_of_polls [5; 12]%nat)) 1)
           [Print_total_scraped 3]).
Proof.
  destruct (scroll_loop_negative_total 0 (-2)
              (counts (surface_of_polls [5; 12]%nat))) as [_ H]; [lia|].
  exact H.
Defined.

(** ** More on the export (lines 61 to 84) *)

(** X12.  A collection with no record is exported as a frame with no
    column at all, so the delimited file has no header line with the
    field names; any other collection gives the eleven columns, and
    each row has eleven cells. *)
Theorem export_of_empty_collection (bl : BusinessList) :
  (business_list bl = [] <-> columns (dataframe bl) = [])
  /\ (business_list bl = [] <-> header (to_csv (dataframe bl)) = [])
  /\ length (columns (dataframe bl))
     = match business_list bl with [] => 0%nat | _ :: _ => 11%nat end
  /\ Forall (fun row => length row = 11%nat) (rows (dataframe bl)).
Proof.
  assert (header (to_csv (dataframe bl)) = columns (dataframe bl)) as -> by done.
  rewrite dataframe_columns, dataframe_rows.
  destruct (business_list bl) as [|b l] eqn:Hl.
  - repeat split; done.
  - repeat split; try done.
    apply Forall_fmap, Forall_forall. intros b' _. by destruct b'.
Qed.

(** ** The process (lines 93 to 250) *)

Section Process.
Context {W : Type} `{!Environment W}.
Variable py_hash : list (option str) -> Z.

Lemma never_exits_settles {A} (m : M W A) : settles m -> never_exits m.
Proof.
  intros Hm st status st'. destruct (Hm st) as [st1 [[a ->]|[e ->]]]; done.
Qed.

Lemma never_exits_ret {A} (a : A) : never_exits (mret a : M W A).
Proof. done. Qed.

Lemma never_exits_do {A} (c : call W A) : never_exits (do c).
Proof. apply never_exits_settles, settles_do. Qed.

Lemma never_exits_print o : never_exits (print o : M W unit).
Proof. done. Qed.

Lemma never_exits_out_of_fuel {A} : never_exits (out_of_fuel : M W A).
Proof. done. Qed.

Lemma never_exits_bind {A B} (m : M W A) (f : A -> M W B) :
  never_exits m -> (forall a, never_exits (f a)) -> never_exits (m ≫= f).
Proof.
  intros Hm Hf st status st'. unfold mbind, M_bind.
  destruct (m st) as [[a|e|status'|] st1] eqn:Hst; [apply Hf|done| |done].
  by apply Hm in Hst.
Qed.

Create HintDb never_exits discriminated.
#[local] Hint Resolve never_exits_ret never_exits_do never_exits_print
  never_exits_out_of_fuel : never_exits.

(** The hints close the calls; binds are taken apart one by one. *)
Ltac stays :=
  repeat first
    [ solve [auto with never_exits]
    | apply never_exits_bind; [|intros ?]
    | case_bool_decide ].

Lemma never_exits_scroll_loop fuel total previously_counted :
  never_exits (scroll_loop fuel total previously_counted).
Proof.
  revert previously_counted. induction fuel as [|fuel IH]; intros prev.
  - apply never_exits_out_of_fuel.
  - cbn [scroll_loop]. unfold all. stays.
Qed.

Lemma never_exits_scrape_listings search_for bl listings :
  never_exits (scrape_listings py_hash search_for bl listings).
Proof.
  intros st status st'.
  by destruct (scrape_listings_returns py_hash search_for listings bl st)
    as (bl' & st1 & ->).
Qed.

#[local] Hint Resolve never_exits_scroll_loop never_exits_scrape_listings
  : never_exits.

Lemma never_exits_scrape_search fuel save_at total i search_for :
  never_exits (scrape_search py_hash fuel save_at total i search_for).
Proof. unfold scrape_search, save_to_excel, save_to_csv. stays. Qed.

#[local] Hint Resolve never_exits_scrape_search : never_exits.

Lemma never_exits_scrape_searches fuel save_at total i search_list :
  never_exits (scrape_searches py_hash fuel save_at total i search_list).
Proof.
  revert i. induction search_list as [|s l IH]; intros i; cbn [scrape_searches];
    stays.
Qed.

#[local] Hint Resolve never_exits_scrape_searches : never_exits.



End Process.

